(** * Business finder: aggregation and duplicate filtering

    A shallow embedding of [backend/business_finder.py] (the three provider
    clients and [filter_duplicate_businesses]) and of the two callers that
    drive a search, [backend/app.py] and
    [backend/services/business_service.py].

    Conventions of the embedding.
    - A business dictionary is a record with one field per key the providers
      write.  Keys holding text are [string]; keys that may hold a number or
      the empty string are Python values ([Py.value]).
    - [str.lower] is modelled on the ASCII letters.
    - The dictionary [unique_businesses] is an insertion-ordered association
      list: assigning to a present key overwrites the value in place,
      assigning to an absent key appends.
    - The network is an explicit [World] threaded through every call; a
      transport call answers [RequestException] when [requests] raises
      one.  Sleeping and the rate limiter only delay a call and are left
      out.
    - Response bodies are typed: a key the code reads with [d[key]] is a
      field that is always there, a key read with [d.get(key)] or tested
      with [in] is an optional field. *)

From Stdlib Require Import String Ascii List ZArith QArith Bool Arith Lia.
From Stdlib Require Import DecimalString.
Import ListNotations.

Local Close Scope Q_scope.
Local Open Scope string_scope.
Local Open Scope list_scope.

(** ** Python values *)

Module Py.

Inductive value : Type :=
| VNone
| VStr (s : string)
| VInt (n : Z)
| VFloat (q : Q).

(** Truth value of an object, as tested by [if v]. *)
Definition truthy (v : value) : bool :=
  match v with
  | VNone => false
  | VStr s => negb (s =? "")
  | VInt n => negb (n =? 0)%Z
  | VFloat q => negb (Qeq_bool q 0)
  end.

Definition str_truthy (s : string) : bool := negb (s =? "").

Definition lower_ascii (c : ascii) : ascii :=
  let n := nat_of_ascii c in
  if ((65 <=? n) && (n <=? 90))%nat then ascii_of_nat (n + 32) else c.

Fixpoint lower (s : string) : string :=
  match s with
  | EmptyString => EmptyString
  | String c s' => String (lower_ascii c) (lower s')
  end.

(** [a < b] on numbers. *)
Definition ltb (a b : Q) : bool := negb (Qle_bool b a).

End Py.

(** ** The business record *)

Record Business : Type := mkBusiness {
  Business_Name : string;
  Category : string;
  Address : string;
  City : string;
  Country : string;
  Phone_Number : string;
  Email : string;
  Website : string;
  Google_Rating : Py.value;
  Number_of_Reviews : Py.value;
  Latitude : Py.value;
  Longitude : Py.value;
  API_Source : string
}.

(** [business.values()], in key order. *)
Definition Business_values (b : Business) : list Py.value :=
  [ Py.VStr (Business_Name b); Py.VStr (Category b); Py.VStr (Address b);
    Py.VStr (City b); Py.VStr (Country b); Py.VStr (Phone_Number b);
    Py.VStr (Email b); Py.VStr (Website b); Google_Rating b;
    Number_of_Reviews b; Latitude b; Longitude b; Py.VStr (API_Source b) ].

(** ** An insertion-ordered dictionary keyed by strings *)

Module Dict.

Section Dict.
Variable V : Type.

Definition t : Type := list (string * V).

Fixpoint get (k : string) (d : t) : option V :=
  match d with
  | [] => None
  | (k', v) :: d' => if k =? k' then Some v else get k d'
  end.

(** [d[k] = v]. *)
Fixpoint set (k : string) (v : V) (d : t) : t :=
  match d with
  | [] => [(k, v)]
  | (k', v') :: d' =>
      if k =? k' then (k', v) :: d' else (k', v') :: set k v d'
  end.

Definition keys (d : t) : list string := map fst d.
Definition values (d : t) : list V := map snd d.

End Dict.

Arguments get {V} k d.
Arguments set {V} k v d.
Arguments keys {V} d.
Arguments values {V} d.

End Dict.

(** ** Duplicate filtering *)

Definition count_truthy (b : Business) : nat :=
  length (filter Py.truthy (Business_values b)).

Definition _business_has_more_info (new_business existing_business : Business)
  : bool :=
  let new_count := count_truthy new_business in
  let existing_count := count_truthy existing_business in
  if Py.str_truthy (Email new_business)
     && negb (Py.str_truthy (Email existing_business)) then true
  else if Py.str_truthy (Phone_Number new_business)
          && negb (Py.str_truthy (Phone_Number existing_business)) then true
  else if (API_Source new_business =? "Google Places API")
          && negb (API_Source existing_business =? "Google Places API")
       then true
  else (existing_count <? new_count)%nat.

(** The key of a record: [f"{name}|{address}".lower()]. *)
Definition dedup_key (business : Business) : string :=
  Py.lower (Business_Name business ++ "|" ++ Address business).

(** One iteration of the loop of [filter_duplicate_businesses]. *)
Definition dedupe_step (unique_businesses : Dict.t Business)
  (business : Business) : Dict.t Business :=
  let key := dedup_key business in
  match Dict.get key unique_businesses with
  | None => Dict.set key business unique_businesses
  | Some existing =>
      if _business_has_more_info business existing
      then Dict.set key business unique_businesses
      else unique_businesses
  end.

Definition filter_duplicate_businesses (businesses : list Business)
  : list Business :=
  Dict.values (fold_left dedupe_step businesses []).

(** ** String helpers used by the providers *)

Module Str.

Definition upper_ascii (c : ascii) : ascii :=
  let n := nat_of_ascii c in
  if ((97 <=? n) && (n <=? 122))%nat then ascii_of_nat (n - 32) else c.

(** [s.capitalize()] *)
Definition capitalize (s : string) : string :=
  match s with
  | EmptyString => EmptyString
  | String c s' => String (upper_ascii c) (Py.lower s')
  end.

(** [s.split(',')] *)
Fixpoint split_comma_aux (cur : string) (s : string) : list string :=
  match s with
  | EmptyString => [cur]
  | String c s' =>
      if Ascii.eqb c ","%char
      then cur :: split_comma_aux "" s'
      else split_comma_aux (cur ++ String c "") s'
  end.

Definition split_comma (s : string) : list string := split_comma_aux "" s.

Definition is_space (c : ascii) : bool :=
  let n := nat_of_ascii c in
  ((n =? 32) || ((9 <=? n) && (n <=? 13)))%nat.

Fixpoint lstrip (s : string) : string :=
  match s with
  | EmptyString => EmptyString
  | String c s' => if is_space c then lstrip s' else s
  end.

Fixpoint rev_string (acc s : string) : string :=
  match s with
  | EmptyString => acc
  | String c s' => rev_string (String c acc) s'
  end.

(** [s.strip()] *)
Definition strip (s : string) : string :=
  rev_string "" (lstrip (rev_string "" (lstrip s))).

End Str.

(** ** The network *)

(** Outcome of [requests.get]/[requests.post] followed by
    [raise_for_status] and [json]. *)
Inductive reply (A : Type) : Type :=
| Ok (body : A)
| RequestException (msg : string).

Arguments Ok {A} body.
Arguments RequestException {A} msg.

(** An exception that leaves [search_businesses]. *)
Inductive Exception : Type :=
| AttributeError (msg : string).

(** How a call of [search_businesses] ends. *)
Inductive Outcome : Type :=
| Returns (businesses : list Business)
| Raises (e : Exception).

(** *** Wire formats of the Google Places client *)

Module GoogleWire.

Record Place : Type := mkPlace {
  place_id : string;
  name : string;
  rating : option Q
}.

Record Component : Type := mkComponent {
  types : list string;
  long_name : string
}.

Record PlaceDetails : Type := mkPlaceDetails {
  d_name : option string;
  formatted_address : option string;
  formatted_phone_number : option string;
  website : option string;
  d_rating : option Py.value;
  user_ratings_total : option Py.value;
  geometry_lat : option Py.value;
  geometry_lng : option Py.value;
  address_components : list Component
}.

Definition no_details : PlaceDetails :=
  mkPlaceDetails None None None None None None None None [].

(** The keys the client reads from a response dictionary. *)
Record Json : Type := mkJson {
  status : option string;
  error_message : option string;
  first_location : Py.value * Py.value;
  results : list Place;
  next_page_token : option string;
  result : PlaceDetails
}.

Inductive Request : Type :=
| Geocode (address : string)
| NearbySearch (location : Py.value * Py.value) (radius : Z) (type : string)
| NextPage (pagetoken : string)
| Details (place_id : string).

End GoogleWire.

(** *** Wire formats of the OpenStreetMap client *)

Module OsmWire.

Record Location : Type := mkLocation {
  lat : string;
  lon : string;
  display_name : option string
}.

Record Element : Type := mkElement {
  type : option string;
  tags : option (Dict.t string);
  e_lat : option Py.value;
  e_lon : option Py.value
}.

(** The Overpass query is determined by the tag expression, the resolved
    point and the radius; the bounding-box arithmetic on floats stays inside
    the request. *)
Inductive Request : Type :=
| Search (q : string)
| Overpass (osm_category : string) (lat lon : string) (radius_km : Z).

End OsmWire.

(** *** Wire formats of the Yelp Fusion client *)

Module YelpWire.

Record YLocation : Type := mkYLocation {
  display_address : list string;
  city : option string;
  country : option string
}.

Record YBusiness : Type := mkYBusiness {
  id : option string;
  name : option string;
  rating : option Q;
  location : option YLocation;
  phone : option string;
  url : option string;
  review_count : option Z;
  latitude : option Py.value;
  longitude : option Py.value
}.

(** The value under the key [error]: the text [str(e)] that [_make_request]
    stores there, or an object sent by the service. *)
Inductive ErrorValue : Type :=
| ErrorText (text : string)
| ErrorObject (description : option string).

Record Json : Type := mkJson {
  error : option ErrorValue;
  businesses : list YBusiness;
  offset : option Z;
  total : option Z
}.

Inductive Request : Type :=
| Search (location categories : string) (radius limit : Z)
         (offset : option Z)
| BusinessDetails (business_id : string).

End YelpWire.

(** Everything outside the program: the remote services, the web sites
    scraped for an email address, and Python's [str] on numbers. *)
Class Network : Type := {
  World : Type;
  google_http :
    string -> GoogleWire.Request -> World -> reply GoogleWire.Json * World;
  nominatim_http :
    OsmWire.Request -> World -> reply (list OsmWire.Location) * World;
  overpass_http :
    OsmWire.Request -> World -> reply (list OsmWire.Element) * World;
  yelp_http :
    string -> YelpWire.Request -> World -> reply YelpWire.Json * World;
  scrape_email : string -> World -> option string * World;
  str_float : Q -> string;
  str_int : Z -> string
}.

(** ** Shared provider behaviour *)

Section BusinessDataAPI.
Context `{Network}.

(** [extract_email_from_website]: nothing is fetched for an empty URL; the
    page fetches and the pattern search belong to the outside world. *)
Definition extract_email_from_website (website_url : string) (w : World)
  : option string * World :=
  if negb (Py.str_truthy website_url) then (None, w)
  else scrape_email website_url w.

(** The enrichment block shared by the Google and Yelp loops:
    [if business_data['Website']: email = ...; if email: set it]. *)
Definition enrich_email (business_data : Business) (w : World)
  : Business * World :=
  if Py.str_truthy (Website business_data) then
    match extract_email_from_website (Website business_data) w with
    | (Some email, w') =>
        if Py.str_truthy email
        then (mkBusiness (Business_Name business_data)
                (Category business_data) (Address business_data)
                (City business_data) (Country business_data)
                (Phone_Number business_data) email (Website business_data)
                (Google_Rating business_data)
                (Number_of_Reviews business_data) (Latitude business_data)
                (Longitude business_data) (API_Source business_data), w')
        else (business_data, w')
    | (None, w') => (business_data, w')
    end
  else (business_data, w).

End BusinessDataAPI.

Definition from_option {A : Type} (default : A) (o : option A) : A :=
  match o with Some a => a | None => default end.

(** ** Google Places *)

Module GooglePlacesAPI.
Import GoogleWire.

Section Client.
Context `{Network}.

Definition get_api_name : string := "Google Places API".

Definition error_json (msg : string) : Json :=
  mkJson (Some "ERROR") (Some msg) (Py.VNone, Py.VNone) [] None no_details.

Definition _make_request (api_key : string) (request : Request) (w : World)
  : Json * World :=
  match google_http api_key request w with
  | (Ok body, w') => (body, w')
  | (RequestException msg, w') => (error_json msg, w')
  end.

Definition _get_place_details (api_key : string) (place_id : string)
  (w : World) : Json * World :=
  _make_request api_key (Details place_id) w.

(** [r.get('status') != 'OK'] *)
Definition status_not_ok (r : Json) : bool :=
  match status r with
  | Some s => negb (s =? "OK")
  | None => true
  end.

Definition category_map (category : string) : string :=
  if category =? "hotel" then "lodging"
  else if category =? "restaurant" then "restaurant"
  else if category =? "bar" then "bar"
  else if category =? "cafe" then "cafe"
  else if category =? "bakery" then "bakery"
  else if category =? "nightclub" then "night_club"
  else category.

(** ['rating' in place and place['rating'] < min_rating] *)
Definition rating_too_low (place : Place) (min_rating : Q) : bool :=
  match rating place with
  | Some r => Py.ltb r min_rating
  | None => false
  end.

Definition mem_string (s : string) (l : list string) : bool :=
  existsb (String.eqb s) l.

(** The scan of [address_components] for the city and the country. *)
Definition scan_components (components : list Component) : string * string :=
  fold_left
    (fun (acc : string * string) component =>
       if mem_string "locality" (types component)
       then (long_name component, snd acc)
       else if mem_string "country" (types component)
            then (fst acc, long_name component)
            else acc)
    components ("", "").

Definition business_of_details (category : string)
  (place_details : PlaceDetails) : Business :=
  let (city, country) := scan_components (address_components place_details) in
  mkBusiness
    (from_option "" (d_name place_details))
    (Str.capitalize category)
    (from_option "" (formatted_address place_details))
    city
    country
    (from_option "" (formatted_phone_number place_details))
    ""
    (from_option "" (website place_details))
    (from_option (Py.VStr "") (d_rating place_details))
    (from_option (Py.VStr "") (user_ratings_total place_details))
    (from_option (Py.VStr "") (geometry_lat place_details))
    (from_option (Py.VStr "") (geometry_lng place_details))
    get_api_name.

(** How one pass through a loop body ends: the loop goes on to the next
    candidate with the state the body leaves, or [break] ends it. *)
Inductive Pass : Type :=
| Next (search_result : Json) (businesses : list Business) (w : World)
| Break (businesses : list Business) (w : World).

(** The body of the loop for a place that passed the rating test: the
    details call, the record, the email lookup, and the request for the next
    page. *)
Definition visit_place (api_key category : string) (place : Place)
  (search_result : Json) (businesses : list Business) (w : World) : Pass :=
  let (details_result, w1) :=
    _get_place_details api_key (place_id place) w in
  if status_not_ok details_result
  then Next search_result businesses w1
  else
    let (business_data, w2) :=
      enrich_email
        (business_of_details category (result details_result)) w1 in
    let businesses' := businesses ++ [business_data] in
    match next_page_token search_result with
    | Some token =>
        let (next_result, w3) :=
          _make_request api_key (NextPage token) w2 in
        if status_not_ok next_result
        then Break businesses' w3
        else Next next_result businesses' w3
    | None => Next search_result businesses' w2
    end.

(** The [for place in search_result.get('results', [])] loop.  The list
    being iterated is fixed when the loop starts; [search_result] is the
    variable the pagination block rebinds. *)
Fixpoint places_loop (api_key category : string) (min_rating : Q)
  (places : list Place) (search_result : Json) (businesses : list Business)
  (w : World) : list Business * World :=
  match places with
  | [] => (businesses, w)
  | place :: rest =>
      if rating_too_low place min_rating
      then places_loop api_key category min_rating rest search_result
             businesses w
      else
        match visit_place api_key category place search_result businesses w
        with
        | Next search_result' businesses' w' =>
            places_loop api_key category min_rating rest search_result'
              businesses' w'
        | Break businesses' w' => (businesses', w')
        end
  end.

(** Radius sent with the nearby search. *)
Definition radius_meters (radius_km : Z) : Z := (radius_km * 1000)%Z.

Definition search_businesses (api_key location category : string)
  (radius_km : Z) (min_rating : Q) (w : World) : list Business * World :=
  let google_type := category_map (Py.lower category) in
  let (geocode_result, w1) := _make_request api_key (Geocode location) w in
  if status_not_ok geocode_result then ([], w1)
  else
    let location_coords := first_location geocode_result in
    let (search_result, w2) :=
      _make_request api_key
        (NearbySearch location_coords (radius_meters radius_km) google_type)
        w1 in
    if status_not_ok search_result then ([], w2)
    else places_loop api_key category min_rating (results search_result)
           search_result [] w2.

End Client.
End GooglePlacesAPI.

(** ** OpenStreetMap *)

Module OpenStreetMapAPI.
Import OsmWire.

Section Client.
Context `{Network}.

Definition get_api_name : string := "OpenStreetMap API".

(** What [_make_request] hands back: the decoded array, or the dictionary
    [{"error": ...}] built in the handler. *)
Inductive SearchResult : Type :=
| Locations (l : list Location)
| ErrorDict (msg : string).

Definition _make_request (request : Request) (w : World)
  : SearchResult * World :=
  match nominatim_http request w with
  | (Ok body, w') => (Locations body, w')
  | (RequestException msg, w') => (ErrorDict msg, w')
  end.

Definition category_map (category : string) : string :=
  if category =? "hotel" then "tourism=hotel"
  else if category =? "restaurant" then "amenity=restaurant"
  else if category =? "bar" then "amenity=bar"
  else if category =? "cafe" then "amenity=cafe"
  else if category =? "bakery" then "shop=bakery"
  else if category =? "nightclub" then "amenity=nightclub"
  else "amenity=" ++ category.

Definition has_key (k : string) (tags : Dict.t string) : bool :=
  match Dict.get k tags with Some _ => true | None => false end.

Definition address_of_tags (tags : Dict.t string) : string :=
  let address_parts :=
    match Dict.get "addr:housenumber" tags, Dict.get "addr:street" tags with
    | Some number, Some street => [(number ++ " " ++ street)%string]
    | None, Some street => [street]
    | _, None => []
    end in
  let address_parts :=
    match Dict.get "addr:postcode" tags with
    | Some postcode => address_parts ++ [postcode]
    | None => address_parts
    end in
  String.concat ", " address_parts.

Definition business_of_element (category : string) (location_data : Location)
  (element : Element) (tags : Dict.t string) : Business :=
  let display := from_option "" (display_name location_data) in
  mkBusiness
    (from_option "" (Dict.get "name" tags))
    (Str.capitalize category)
    (address_of_tags tags)
    (from_option (hd "" (Str.split_comma display)) (Dict.get "addr:city" tags))
    (from_option (Str.strip (last (Str.split_comma display) ""))
       (Dict.get "addr:country" tags))
    (from_option "" (Dict.get "phone" tags))
    (from_option "" (Dict.get "email" tags))
    (from_option "" (Dict.get "website" tags))
    (Py.VStr "")
    (Py.VStr "")
    (from_option (Py.VStr "") (e_lat element))
    (from_option (Py.VStr "") (e_lon element))
    get_api_name.

(** [if website and not business_data['Email']: ...] *)
Definition enrich_missing_email (business_data : Business) (w : World)
  : Business * World :=
  if Py.str_truthy (Website business_data)
     && negb (Py.str_truthy (Email business_data))
  then enrich_email business_data w
  else (business_data, w).

(** [element.get('type') != 'node'] *)
Definition not_a_node (element : Element) : bool :=
  match type element with
  | Some t => negb (t =? "node")
  | None => true
  end.

(** The [for element in results.get('elements', [])] loop. *)
Fixpoint elements_loop (category : string) (location_data : Location)
  (elements : list Element) (businesses : list Business) (w : World)
  : list Business * World :=
  match elements with
  | [] => (businesses, w)
  | element :: rest =>
      if not_a_node element
      then elements_loop category location_data rest businesses w
      else
        let tags := from_option [] (tags element) in
        if negb (has_key "name" tags)
        then elements_loop category location_data rest businesses w
        else
          let (business_data, w1) :=
            enrich_missing_email
              (business_of_element category location_data element tags) w in
          elements_loop category location_data rest
            (businesses ++ [business_data]) w1
  end.

(** [min_rating] is a parameter of the method and is not read. *)
Definition search_businesses (location category : string) (radius_km : Z)
  (min_rating : Q) (w : World) : list Business * World :=
  let osm_category := category_map (Py.lower category) in
  let (location_result, w1) := _make_request (Search location) w in
  match location_result with
  | ErrorDict _ => ([], w1)
  | Locations [] => ([], w1)
  | Locations (location_data :: _) =>
      match overpass_http
              (Overpass osm_category (lat location_data) (lon location_data)
                 radius_km) w1 with
      | (RequestException _, w2) => ([], w2)
      | (Ok elements, w2) =>
          elements_loop category location_data elements [] w2
      end
  end.

End Client.
End OpenStreetMapAPI.

(** ** Yelp Fusion *)

Module YelpFusionAPI.
Import YelpWire.

Section Client.
Context `{Network}.

Definition get_api_name : string := "Yelp Fusion API".

(** [{"error": str(e)}] *)
Definition error_json (msg : string) : Json :=
  mkJson (Some (ErrorText msg)) [] None None.

Definition _make_request (api_key : string) (request : Request) (w : World)
  : Json * World :=
  match yelp_http api_key request w with
  | (Ok body, w') => (body, w')
  | (RequestException msg, w') => (error_json msg, w')
  end.

(** ['error' in r] *)
Definition has_error (r : Json) : bool :=
  match error r with Some _ => true | None => false end.

Definition category_map (category : string) : string :=
  if category =? "hotel" then "hotels"
  else if category =? "restaurant" then "restaurants"
  else if category =? "bar" then "bars"
  else if category =? "cafe" then "cafes"
  else if category =? "bakery" then "bakeries"
  else if category =? "nightclub" then "nightlife"
  else category.

(** Radius sent with the search: [radius_km * 1000], cut at 40000. *)
Definition radius_meters (radius_km : Z) : Z :=
  let radius_meters := (radius_km * 1000)%Z in
  if (40000 <? radius_meters)%Z then 40000%Z else radius_meters.

(** [business.get('rating', 0) < min_rating] *)
Definition rating_too_low (business : YBusiness) (min_rating : Q) : bool :=
  Py.ltb (from_option 0%Q (rating business)) min_rating.

Definition business_of_candidate (category : string) (business : YBusiness)
  : Business :=
  let location_data :=
    from_option (mkYLocation [] None None) (location business) in
  let address := String.concat ", " (display_address location_data) in
  mkBusiness
    (from_option "" (name business))
    (Str.capitalize category)
    address
    (from_option "" (city location_data))
    (from_option "" (country location_data))
    (from_option "" (phone business))
    ""
    (from_option "" (url business))
    (Py.VStr (match rating business with
              | Some r => str_float r
              | None => ""
              end))
    (Py.VStr (match review_count business with
              | Some n => str_int n
              | None => ""
              end))
    (from_option (Py.VStr "") (latitude business))
    (from_option (Py.VStr "") (longitude business))
    get_api_name.

Inductive Pass : Type :=
| Next (search_result : Json) (businesses : list Business) (w : World)
| Break (businesses : list Business) (w : World).

(** The body of the loop for a candidate that passed the rating test and
    has an identifier: the details call, the record, the email lookup, and
    the request for the next page, for which the new offset is stored in
    [search_params]. *)
Definition visit_business (api_key location category : string) (radius : Z)
  (business : YBusiness) (business_id : string) (search_result : Json)
  (businesses : list Business) (w : World) : Pass :=
  let (details_result, w1) :=
    _make_request api_key (BusinessDetails business_id) w in
  if has_error details_result
  then Next search_result businesses w1
  else
    let (business_data, w2) :=
      enrich_email (business_of_candidate category business) w1 in
    let businesses' := businesses ++ [business_data] in
    let offset :=
      (from_option 0 (offset search_result)
       + Z.of_nat (length (YelpWire.businesses search_result)))%Z in
    let total := from_option 0%Z (total search_result) in
    if ((offset <? total) && (offset <? 1000))%Z
    then
      let (next_result, w3) :=
        _make_request api_key
          (Search location (category_map (Py.lower category)) radius 50
             (Some offset)) w2 in
      if has_error next_result
      then Break businesses' w3
      else Next next_result businesses' w3
    else Next search_result businesses' w2.

(** [business_id = business.get('id')], kept when it is truthy. *)
Definition usable_id (business : YBusiness) : option string :=
  match id business with
  | Some business_id =>
      if Py.str_truthy business_id then Some business_id else None
  | None => None
  end.

(** The [for business in search_result.get('businesses', [])] loop. *)
Fixpoint businesses_loop (api_key location category : string)
  (radius : Z) (min_rating : Q) (candidates : list YBusiness)
  (search_result : Json) (businesses : list Business) (w : World)
  : list Business * World :=
  match candidates with
  | [] => (businesses, w)
  | business :: rest =>
      if rating_too_low business min_rating
      then businesses_loop api_key location category radius min_rating rest
             search_result businesses w
      else
        match usable_id business with
        | None =>
            businesses_loop api_key location category radius min_rating rest
              search_result businesses w
        | Some business_id =>
            match visit_business api_key location category radius business
                    business_id search_result businesses w with
            | Next search_result' businesses' w' =>
                businesses_loop api_key location category radius min_rating
                  rest search_result' businesses' w'
            | Break businesses' w' => (businesses', w')
            end
        end
  end.

(** When the key [error] is present the method logs
    [search_result.get('error', {}).get('description', 'Unknown error')]
    before [return []]: on an object the lookup gives the description, on a
    text it raises [AttributeError]. *)
Definition search_businesses (api_key location category : string)
  (radius_km : Z) (min_rating : Q) (w : World) : Outcome * World :=
  let yelp_category := category_map (Py.lower category) in
  let (search_result, w1) :=
    _make_request api_key
      (Search location yelp_category (radius_meters radius_km) 50 None) w in
  match error search_result with
  | Some (ErrorText _) =>
      (Raises (AttributeError "'str' object has no attribute 'get'"), w1)
  | Some (ErrorObject _) => (Returns [], w1)
  | None =>
      let (businesses, w2) :=
        businesses_loop api_key location category (radius_meters radius_km)
          min_rating (YelpWire.businesses search_result) search_result [] w1
      in
      (Returns businesses, w2)
  end.

End Client.
End YelpFusionAPI.

(** ** Choosing a provider *)

Inductive Api : Type :=
| UseGoogle (api_key : string)
| UseYelp (api_key : string)
| UseOpenStreetMap.

Record Config : Type := mkConfig {
  GOOGLE_API_KEY : option string;
  YELP_API_KEY : option string
}.

(** [config.get(KEY)] used as a condition. *)
Definition key_present (k : option string) : bool :=
  match k with Some s => Py.str_truthy s | None => false end.

(** The [if/elif/else] that builds the client, in [app.py] and in
    [_get_api_instance]. *)
Definition select_api (config : Config) (api_source : string) : Api :=
  if (api_source =? "google") && key_present (GOOGLE_API_KEY config)
  then UseGoogle (from_option "" (GOOGLE_API_KEY config))
  else if (api_source =? "yelp") && key_present (YELP_API_KEY config)
  then UseYelp (from_option "" (YELP_API_KEY config))
  else UseOpenStreetMap.

(** Calls observed while a request is served. *)
Inductive Event : Type :=
| CallSearch (category : string)
| CallSleep
| CallDedupe (input : list Business).

Definition is_dedupe (e : Event) : bool :=
  match e with CallDedupe _ => true | _ => false end.

Definition is_search (e : Event) : bool :=
  match e with CallSearch _ => true | _ => false end.

Definition dedupe_calls (trace : list Event) : nat :=
  length (filter is_dedupe trace).

Definition search_calls (trace : list Event) : list string :=
  flat_map (fun e => match e with CallSearch c => [c] | _ => [] end) trace.

Section Orchestration.
Context `{Network}.

(** [api.search_businesses(...)] on the selected client. *)
Definition api_search_businesses (api : Api) (location category : string)
  (radius_km : Z) (min_rating : Q) (w : World) : Outcome * World :=
  match api with
  | UseGoogle api_key =>
      let (businesses, w') :=
        GooglePlacesAPI.search_businesses api_key location category radius_km
          min_rating w in
      (Returns businesses, w')
  | UseYelp api_key =>
      YelpFusionAPI.search_businesses api_key location category radius_km
        min_rating w
  | UseOpenStreetMap =>
      let (businesses, w') :=
        OpenStreetMapAPI.search_businesses location category radius_km
          min_rating w in
      (Returns businesses, w')
  end.

End Orchestration.

(** *** [app.py] *)

Module App.

Definition categories : list string :=
  ["hotel"; "restaurant"; "bar"; "cafe"; "bakery"; "nightclub"].

Section Route.
Context `{Network}.

(** [for cat in categories: ... all_businesses.extend(...); sleep(0.5)];
    an exception in a search leaves the loop. *)
Fixpoint search_each (api : Api) (location : string) (radius : Z)
  (min_rating : Q) (cats : list string) (all_businesses : list Business)
  (trace : list Event) (w : World) : Outcome * list Event * World :=
  match cats with
  | [] => (Returns all_businesses, trace, w)
  | cat :: rest =>
      match api_search_businesses api location cat radius min_rating w with
      | (Returns cat_businesses, w1) =>
          search_each api location radius min_rating rest
            (all_businesses ++ cat_businesses)
            (trace ++ [CallSearch cat; CallSleep]) w1
      | (Raises e, w1) => (Raises e, trace ++ [CallSearch cat], w1)
      end
  end.

(** The search part of the route [/api/businesses]: the list stored in
    [last_search_results], before the identifiers are attached.  [Raises]
    is the case in which the handler [except Exception] answers with the
    status 500. *)
Definition search_businesses (config : Config)
  (location category : string) (radius : Z) (min_rating : Q)
  (api_source : string) (w : World) : Outcome * list Event * World :=
  let api := select_api config api_source in
  if Py.lower category =? "all" then
    match search_each api location radius min_rating categories [] [] w with
    | (Returns all_businesses, trace, w1) =>
        (Returns (filter_duplicate_businesses all_businesses),
         trace ++ [CallDedupe all_businesses], w1)
    | (Raises e, trace, w1) => (Raises e, trace, w1)
    end
  else
    match api_search_businesses api location category radius min_rating w
    with
    | (Returns businesses, w1) =>
        (Returns businesses, [CallSearch category], w1)
    | (Raises e, w1) => (Raises e, [CallSearch category], w1)
    end.

End Route.
End App.

(** *** [services/business_service.py] *)

Module Service.

Section GetBusinesses.
Context `{Network}.

Definition cache_key (api_source location category : string) (radius_km : Z)
  (min_rating : Q) : string :=
  (api_source ++ ":" ++ location ++ ":" ++ category ++ ":"
     ++ str_int radius_km ++ ":" ++ str_float min_rating)%string.

(** [get_businesses], with the module-level [_api_cache] passed in and
    out.  An exception of the search passes through to the caller. *)
Definition get_businesses (config : Config) (location category : string)
  (radius_km : Z) (min_rating : Q) (api_source : string)
  (_api_cache : Dict.t (list Business)) (w : World)
  : Outcome * list Event * Dict.t (list Business) * World :=
  let key := cache_key api_source location category radius_km min_rating in
  match Dict.get key _api_cache with
  | Some cached => (Returns cached, [], _api_cache, w)
  | None =>
      let api := select_api config api_source in
      match api_search_businesses api location category radius_km min_rating
              w with
      | (Returns businesses, w1) =>
          let filtered_businesses := filter_duplicate_businesses businesses in
          (Returns filtered_businesses,
           [CallSearch category; CallDedupe businesses],
           Dict.set key filtered_businesses _api_cache, w1)
      | (Raises e, w1) => (Raises e, [CallSearch category], _api_cache, w1)
      end
  end.

End GetBusinesses.
End Service.

(** ** A scripted network

    A small closed world on which the model runs: the state counts the
    requests sent so far, and every answer is fixed by the request. *)

Module Demo.

Definition rome : Py.value * Py.value :=
  (Py.VFloat (419 # 10)%Q, Py.VFloat (125 # 10)%Q).

Definition google_places : list GoogleWire.Place :=
  [ GoogleWire.mkPlace "low" "Low" (Some (2 # 1)%Q);
    GoogleWire.mkPlace "unrated" "Unrated" None;
    GoogleWire.mkPlace "down" "Down" (Some (9 # 2)%Q);
    GoogleWire.mkPlace "good" "Good" (Some (9 # 2)%Q) ].

Definition google_details (place_id : string) : GoogleWire.PlaceDetails :=
  GoogleWire.mkPlaceDetails (Some place_id) (Some "Via Roma 1") None None
    None None None None
    [ GoogleWire.mkComponent ["locality"; "political"] "Rome";
      GoogleWire.mkComponent ["country"; "political"] "Italy" ].

Definition google_ok (places : list GoogleWire.Place)
  (details : GoogleWire.PlaceDetails) : GoogleWire.Json :=
  GoogleWire.mkJson (Some "OK") None rome places None details.

Definition google (api_key : string) (request : GoogleWire.Request)
  (w : nat) : reply GoogleWire.Json * nat :=
  match request with
  | GoogleWire.Geocode address =>
      if address =? "offline" then (RequestException "timed out", S w)
      else (Ok (google_ok [] GoogleWire.no_details), S w)
  | GoogleWire.NearbySearch _ radius _ =>
      if (radius =? 0)%Z then (RequestException "timed out", S w)
      else (Ok (google_ok google_places GoogleWire.no_details), S w)
  | GoogleWire.NextPage _ => (RequestException "timed out", S w)
  | GoogleWire.Details place_id =>
      if place_id =? "down" then (RequestException "timed out", S w)
      else (Ok (google_ok [] (google_details place_id)), S w)
  end.

Definition nominatim (request : OsmWire.Request) (w : nat)
  : reply (list OsmWire.Location) * nat :=
  match request with
  | OsmWire.Search q =>
      if q =? "offline" then (RequestException "timed out", S w)
      else if q =? "nowhere" then (Ok [], S w)
      else (Ok [OsmWire.mkLocation "41.9" "12.5"
                  (Some "Roma, Lazio, Italia")], S w)
  | OsmWire.Overpass _ _ _ _ => (RequestException "bad endpoint", S w)
  end.

Definition enzo : OsmWire.Element :=
  OsmWire.mkElement (Some "node")
    (Some [("name", "Da Enzo"); ("addr:street", "Via dei Vascellari")])
    (Some (Py.VFloat (4189 # 100)%Q)) (Some (Py.VFloat (1248 # 100)%Q)).

Definition osm_elements : list OsmWire.Element :=
  [ enzo;
    OsmWire.mkElement (Some "way") (Some [("name", "Piazza")]) None None;
    OsmWire.mkElement (Some "node") (Some [("amenity", "restaurant")])
      None None;
    enzo ].

Definition overpass (request : OsmWire.Request) (w : nat)
  : reply (list OsmWire.Element) * nat :=
  match request with
  | OsmWire.Overpass _ _ _ _ => (Ok osm_elements, S w)
  | OsmWire.Search _ => (RequestException "bad endpoint", S w)
  end.

Definition yelp_candidate (id : option string) (rating : option Q)
  : YelpWire.YBusiness :=
  YelpWire.mkYBusiness id (Some "Trattoria") rating
    (Some (YelpWire.mkYLocation ["Via Roma 1"; "Rome"] (Some "Rome")
             (Some "IT")))
    None None (Some 12%Z) None None.

Definition yelp_candidates : list YelpWire.YBusiness :=
  [ yelp_candidate (Some "low") (Some (2 # 1)%Q);
    yelp_candidate (Some "unrated") None;
    yelp_candidate (Some "down") (Some (9 # 2)%Q);
    yelp_candidate (Some "good") (Some (9 # 2)%Q) ].

Definition yelp (api_key : string) (request : YelpWire.Request) (w : nat)
  : reply YelpWire.Json * nat :=
  match request with
  | YelpWire.Search location _ _ _ _ =>
      if location =? "offline" then (RequestException "timed out", S w)
      else (Ok (YelpWire.mkJson None yelp_candidates None (Some 4%Z)), S w)
  | YelpWire.BusinessDetails business_id =>
      if business_id =? "down" then (RequestException "timed out", S w)
      else (Ok (YelpWire.mkJson None [] None None), S w)
  end.

Definition net : Network := {|
  World := nat;
  google_http := google;
  nominatim_http := nominatim;
  overpass_http := overpass;
  yelp_http := yelp;
  scrape_email := fun _ w => (None, S w);
  str_float := fun q => if Qeq_bool q (9 # 2)%Q then "4.5" else "2.0";
  str_int := fun n => NilZero.string_of_int (Z.to_int n)
|}.

Definition config : Config := mkConfig (Some "g-key") (Some "y-key").

(** Two records of one business, as two providers report it. *)
Definition with_email : Business :=
  mkBusiness "Da Enzo" "Restaurant" "Via dei Vascellari 29" "Rome" "Italy"
    "" "info@daenzo.it" "" (Py.VStr "") (Py.VStr "") (Py.VStr "")
    (Py.VStr "") "OpenStreetMap API".

Definition with_phone : Business :=
  mkBusiness "Da Enzo" "Restaurant" "Via dei Vascellari 29" "Rome" "Italy"
    "+39 06 581 2260" "" "" (Py.VStr "") (Py.VStr "") (Py.VStr "")
    (Py.VStr "") "Yelp Fusion API".

Definition from_google : Business :=
  mkBusiness "Da Enzo" "Restaurant" "Via dei Vascellari 29" "" ""
    "" "" "" (Py.VStr "") (Py.VStr "") (Py.VStr "")
    (Py.VStr "") "Google Places API".

Definition from_osm : Business :=
  mkBusiness "DA ENZO" "Restaurant" "via dei vascellari 29" "Rome" "Italy"
    "" "" "" (Py.VStr "") (Py.VStr "") (Py.VFloat (4189 # 100)%Q)
    (Py.VFloat (1248 # 100)%Q) "OpenStreetMap API".

End Demo.

(** ** More of the code: text helpers *)

Module Text.

(** [sub in s] on strings. *)
Fixpoint contains (sub s : string) : bool :=
  if String.prefix sub s then true
  else match s with
       | EmptyString => false
       | String _ s' => contains sub s'
       end.

Fixpoint lstrip_slash (s : string) : string :=
  match s with
  | EmptyString => EmptyString
  | String c s' => if Ascii.eqb c "/"%char then lstrip_slash s' else s
  end.

(** [s.rstrip('/')] *)
Definition rstrip_slash (s : string) : string :=
  Str.rev_string "" (lstrip_slash (Str.rev_string "" s)).

(** [s.endswith(suffix)] *)
Definition endswith (s suffix : string) : bool :=
  String.prefix (Str.rev_string "" suffix) (Str.rev_string "" s).

End Text.

(** ** More of the code: looking for an email address on a web site *)

Module EmailDiscovery.

(** The fragments that disqualify a match. *)
Definition excluded : list string :=
  ["example.com"; "yourdomain"; "domain.com"; "email.com"].

(** [not any(exclude in email.lower() for exclude in [...])] *)
Definition acceptable (email : string) : bool :=
  negb (existsb (fun exclude => Text.contains exclude (Py.lower email))
          excluded).

Definition valid_emails (emails : list string) : list string :=
  filter acceptable emails.

Section Discover.
Context `{Network}.

(** [requests.get(url, ...)]: the status code and the text of the answer,
    or an exception. *)
Variable fetch : string -> World -> reply (Z * string) * World.

(** [re.findall(email_pattern, text)] *)
Variable findall : string -> list string.

(** The block run on an answer: the first acceptable match of a page that
    came with status 200. *)
Definition first_valid (answer : Z * string) : option string :=
  if (fst answer =? 200)%Z
  then hd_error (valid_emails (findall (snd answer)))
  else None.

(** The body of [extract_email_from_website] after the test for an empty
    URL.  Any exception ends in [return None]. *)
Definition discover (website_url : string) (w : World)
  : option string * World :=
  match fetch website_url w with
  | (RequestException _, w1) => (None, w1)
  | (Ok response, w1) =>
      match first_valid response with
      | Some email => (Some email, w1)
      | None =>
          if negb (Text.contains "/contact" (Py.lower website_url))
          then
            match
              fetch (Text.rstrip_slash website_url ++ "/contact")%string w1
            with
            | (RequestException _, w2) => (None, w2)
            | (Ok contact_response, w2) =>
                (first_valid contact_response, w2)
            end
          else (None, w1)
      end
  end.

End Discover.
End EmailDiscovery.

(** ** More of the code: the paginated route of [api/routes.py] *)

Module Routes.

(** The index of a slice bound in a list of length [len]. *)
Definition slice_index (len i : Z) : Z :=
  if (i <? 0)%Z then Z.max (i + len) 0 else Z.min i len.

(** [l[start:stop]] *)
Definition py_slice {A : Type} (l : list A) (start stop : Z) : list A :=
  let len := Z.of_nat (length l) in
  let lo := slice_index len start in
  let hi := slice_index len stop in
  firstn (Z.to_nat (hi - lo)) (skipn (Z.to_nat lo) l).

Record Page : Type := mkPage {
  results : list Business;
  count : Z;
  page : Z;
  pageSize : Z;
  totalPages : Z
}.

(** The answer of the route: the page, or the status 500 of the handler
    [except Exception]. *)
Inductive Response : Type :=
| Success (body : Page)
| ServerError (e : option Exception).

(** The slice and the metadata.  [// page_size] raises
    [ZeroDivisionError] for a page size of zero. *)
Definition paginate (businesses : list Business) (page page_size : Z)
  : Response :=
  let start_idx := ((page - 1) * page_size)%Z in
  let end_idx := (start_idx + page_size)%Z in
  let paginated_businesses := py_slice businesses start_idx end_idx in
  let n := Z.of_nat (length businesses) in
  if (page_size =? 0)%Z then ServerError None
  else Success (mkPage paginated_businesses n page page_size
                  ((n + page_size - 1) / page_size)).

Section Route.
Context `{Network}.

(** [search_businesses] of [api/routes.py], after the query parameters are
    read and without the identifiers attached to the records. *)
Definition search_businesses (config : Config) (location category : string)
  (radius : Z) (min_rating : Q) (api_source : string) (page page_size : Z)
  (_api_cache : Dict.t (list Business)) (w : World)
  : Response * Dict.t (list Business) * World :=
  match Service.get_businesses config location category radius min_rating
          api_source _api_cache w with
  | (Returns businesses, _, cache', w') =>
      (paginate businesses page page_size, cache', w')
  | (Raises e, _, cache', w') => (ServerError (Some e), cache', w')
  end.

End Route.
End Routes.

(** ** More of the code: [utils/api_utils.py] *)

Module ApiUtils.

Record Metadata : Type := mkMetadata {
  page : Z;
  pageSize : Z;
  totalItems : Z;
  totalPages : Z;
  hasNextPage : bool;
  hasPrevPage : bool
}.

(** [create_pagination_metadata]; [None] stands for the
    [ZeroDivisionError] of [// page_size]. *)
Definition create_pagination_metadata (total_items page page_size : Z)
  : option Metadata :=
  if (0 <? total_items)%Z then
    if (page_size =? 0)%Z then None
    else
      let total_pages := ((total_items + page_size - 1) / page_size)%Z in
      Some (mkMetadata page page_size total_items total_pages
              (page <? total_pages)%Z (1 <? page)%Z)
  else
    Some (mkMetadata page page_size total_items 1 (page <? 1)%Z
            (1 <? page)%Z).

End ApiUtils.

(** ** More of the code: [utils/validation.py] *)

Module Validation.

Definition valid_categories : list string :=
  ["hotel"; "restaurant"; "bar"; "cafe"; "bakery"; "nightclub"].

Definition valid_sources : list string := ["google"; "yelp"; "osm"].

(** A Python float: a number, not-a-number, or an infinity. *)
Inductive Float : Type :=
| Finite (q : Q)
| NaN
| Infinity (negative : bool).

(** The values a parameter may hold: [None], a string, an integer or a
    float. *)
Inductive Param : Type :=
| PNone
| PStr (s : string)
| PInt (n : Z)
| PFloat (f : Float).

(** Truth value of a parameter, as tested by [if v] and [not v]. *)
Definition truthy (v : Param) : bool :=
  match v with
  | PNone => false
  | PStr s => negb (s =? "")
  | PInt n => negb (n =? 0)%Z
  | PFloat (Finite q) => negb (Qeq_bool q 0)
  | PFloat NaN => true
  | PFloat (Infinity _) => true
  end.

(** [a < b] on floats: false whenever one side is not a number. *)
Definition float_lt (a b : Float) : bool :=
  match a, b with
  | NaN, _ | _, NaN => false
  | Finite x, Finite y => Py.ltb x y
  | Infinity true, Infinity true => false
  | Infinity true, _ => true
  | Infinity false, _ => false
  | Finite _, Infinity negative => negb negative
  end.

(** [v in l] for a list of strings: only an equal string is a member. *)
Definition value_in (v : Param) (l : list string) : bool :=
  match v with
  | PStr s => existsb (String.eqb s) l
  | _ => false
  end.

(** [v != 'all'] *)
Definition differs_from (v : Param) (s : string) : bool :=
  match v with
  | PStr s' => negb (s' =? s)
  | _ => true
  end.

Definition quoted (s : string) : string :=
  String (ascii_of_nat 34) (s ++ String (ascii_of_nat 34) "").

Definition category_message : string :=
  ("Category must be one of: " ++ String.concat ", " valid_categories
     ++ ", or " ++ quoted "all")%string.

Definition source_message : string :=
  ("API source must be one of: " ++ String.concat ", " valid_sources)%string.

(** How [int(v)] or [float(v)] ends: with a value, with the [ValueError]
    or [TypeError] the function catches, or with an [OverflowError], which
    it does not catch. *)
Inductive Conversion (A : Type) : Type :=
| Converted (a : A)
| Caught
| Overflow.

Arguments Converted {A} a.
Arguments Caught {A}.
Arguments Overflow {A}.

(** What [validate_search_params] does: it returns [(is_valid, errors)], or
    an [OverflowError] leaves it. *)
Inductive Outcome : Type :=
| Result (is_valid : bool) (errors : Dict.t string)
| OverflowError.

Section Validate.

(** [int(s)] and [float(s)] on a string; [None] is a [ValueError]. *)
Variable parse_int : string -> option Z.
Variable parse_float : string -> option Float.

(** [float(n)] on an integer beyond 2^53 in absolute value: the nearest
    float, or [None] for the [OverflowError] of an integer too large for a
    float. *)
Variable float_of_big_int : Z -> option Float.

(** [int(v)] *)
Definition to_int (v : Param) : Conversion Z :=
  match v with
  | PInt n => Converted n
  | PFloat (Finite q) => Converted (Z.quot (Qnum q) (Z.pos (Qden q)))
  | PFloat NaN => Caught
  | PFloat (Infinity _) => Overflow
  | PStr s =>
      match parse_int s with Some n => Converted n | None => Caught end
  | PNone => Caught
  end.

(** [float(v)] *)
Definition to_float (v : Param) : Conversion Float :=
  match v with
  | PInt n =>
      if (Z.abs n <=? 2 ^ 53)%Z then Converted (Finite (inject_Z n))
      else match float_of_big_int n with
           | Some f => Converted f
           | None => Overflow
           end
  | PFloat f => Converted f
  | PStr s =>
      match parse_float s with Some f => Converted f | None => Caught end
  | PNone => Caught
  end.

Definition check_location (params : Dict.t Param)
  (errors : Dict.t string) : Dict.t string :=
  if negb (truthy (from_option PNone (Dict.get "location" params)))
  then Dict.set "location" "Location is required" errors
  else errors.

Definition check_category (params : Dict.t Param)
  (errors : Dict.t string) : Dict.t string :=
  let category := from_option PNone (Dict.get "category" params) in
  if truthy category && negb (value_in category valid_categories)
     && differs_from category "all"
  then Dict.set "category" category_message errors
  else errors.

(** The [try] block for the radius; [None] is the [OverflowError]. *)
Definition check_radius (params : Dict.t Param)
  (errors : Dict.t string) : option (Dict.t string) :=
  match to_int (from_option (PInt 5) (Dict.get "radius_km" params)) with
  | Converted radius =>
      if ((radius <=? 0) || (50 <? radius))%Z
      then Some (Dict.set "radius" "Radius must be between 1 and 50 km"
                   errors)
      else Some errors
  | Caught =>
      Some (Dict.set "radius" "Radius must be a positive number" errors)
  | Overflow => None
  end.

(** The [try] block for the minimum rating; [None] is the
    [OverflowError]. *)
Definition check_min_rating (params : Dict.t Param)
  (errors : Dict.t string) : option (Dict.t string) :=
  match
    to_float
      (from_option (PFloat (Finite (7 # 2)%Q))
         (Dict.get "min_rating" params))
  with
  | Converted min_rating =>
      if float_lt min_rating (Finite 1) || float_lt (Finite 5) min_rating
      then Some (Dict.set "min_rating"
                   "Minimum rating must be between 1 and 5" errors)
      else Some errors
  | Caught =>
      Some (Dict.set "min_rating"
              "Minimum rating must be a number between 1 and 5" errors)
  | Overflow => None
  end.

Definition check_api_source (params : Dict.t Param)
  (errors : Dict.t string) : Dict.t string :=
  let api_source :=
    from_option (PStr "osm") (Dict.get "api_source" params) in
  if negb (value_in api_source valid_sources)
  then Dict.set "api_source" source_message errors
  else errors.

(** [validate_search_params]: [(len(errors) == 0, errors)]. *)
Definition validate_search_params (params : Dict.t Param) : Outcome :=
  let errors := check_category params (check_location params []) in
  match check_radius params errors with
  | None => OverflowError
  | Some errors =>
      match check_min_rating params errors with
      | None => OverflowError
      | Some errors =>
          let errors := check_api_source params errors in
          Result (length errors =? 0)%nat errors
      end
  end.

End Validate.

(** Conversions of strings that read the words [nan] and [inf] and the
    numbers of one digit, for the examples. *)
Definition demo_parse_float (s : string) : option Float :=
  if s =? "nan" then Some NaN
  else if s =? "inf" then Some (Infinity false)
  else if s =? "4" then Some (Finite 4)
  else None.

Definition demo_parse_int (s : string) : option Z :=
  if s =? "5" then Some 5%Z else if s =? "60" then Some 60%Z else None.

End Validation.

(** ** More of the code: [models/business.py] *)

Module Models.

Record Review : Type := mkReview {
  author : Py.value;
  r_rating : Py.value;
  comment : Py.value;
  date : Py.value
}.

(** The dataclass [Business]; the fields hold whatever the dictionary
    held. *)
Record BusinessModel : Type := mkBusinessModel {
  id : Py.value;
  name : Py.value;
  category : Py.value;
  address : Py.value;
  city : Py.value;
  country : Py.value;
  phone : Py.value;
  email : Py.value;
  website : Py.value;
  rating : Py.value;
  reviews_count : Py.value;
  latitude : Py.value;
  longitude : Py.value;
  api_source : Py.value;
  reviews : list Review
}.

(** [data.get(key, default)] *)
Definition get_or (data : Dict.t Py.value) (key : string)
  (default : Py.value) : Py.value :=
  from_option default (Dict.get key data).

Definition from_dict (data : Dict.t Py.value) : BusinessModel :=
  mkBusinessModel
    (get_or data "id" (Py.VStr ""))
    (get_or data "Business Name" (Py.VStr ""))
    (get_or data "Category" (Py.VStr ""))
    (get_or data "Address" (Py.VStr ""))
    (get_or data "City" Py.VNone)
    (get_or data "Country" Py.VNone)
    (get_or data "Phone Number" Py.VNone)
    (get_or data "Email" Py.VNone)
    (get_or data "Website" Py.VNone)
    (get_or data "Google Rating" Py.VNone)
    (get_or data "Number of Reviews" Py.VNone)
    (get_or data "Latitude" Py.VNone)
    (get_or data "Longitude" Py.VNone)
    (get_or data "API Source" Py.VNone)
    [].

Definition to_dict (self : BusinessModel) : Dict.t Py.value :=
  [ ("id", id self);
    ("Business Name", name self);
    ("Category", category self);
    ("Address", address self);
    ("City", city self);
    ("Country", country self);
    ("Phone Number", phone self);
    ("Email", email self);
    ("Website", website self);
    ("Google Rating", rating self);
    ("Number of Reviews", reviews_count self);
    ("Latitude", latitude self);
    ("Longitude", longitude self);
    ("API Source", api_source self) ].

End Models.

(** ** More of the code: saving the last results in [app.py] *)

Module Save.

Definition fieldnames : list string :=
  [ "Business Name"; "Category"; "Address"; "City"; "Country";
    "Phone Number"; "Email"; "Website"; "Google Rating";
    "Number of Reviews"; "Latitude"; "Longitude"; "API Source" ].

(** A business dictionary with its keys spelled out. *)
Definition row_of (b : Business) : Dict.t Py.value :=
  [ ("Business Name", Py.VStr (Business_Name b));
    ("Category", Py.VStr (Category b));
    ("Address", Py.VStr (Address b));
    ("City", Py.VStr (City b));
    ("Country", Py.VStr (Country b));
    ("Phone Number", Py.VStr (Phone_Number b));
    ("Email", Py.VStr (Email b));
    ("Website", Py.VStr (Website b));
    ("Google Rating", Google_Rating b);
    ("Number of Reviews", Number_of_Reviews b);
    ("Latitude", Latitude b);
    ("Longitude", Longitude b);
    ("API Source", Py.VStr (API_Source b)) ].

(** [business['id'] = str(uuid.uuid4())]: the route stores the records
    with this key added. *)
Definition with_id (ident : string) (b : Business) : Dict.t Py.value :=
  Dict.set "id" (Py.VStr ident) (row_of b).

(** What the search route leaves in [last_search_results]: every record
    with an identifier, [uuid4 n] being the [n]-th one drawn. *)
Fixpoint stored (uuid4 : nat -> string) (businesses : list Business)
  : list (Dict.t Py.value) :=
  match businesses with
  | [] => []
  | b :: businesses' =>
      with_id (uuid4 0%nat) b :: stored (fun n => uuid4 (S n)) businesses'
  end.

(** [if not filename.endswith('.csv'): filename += '.csv'] *)
Definition csv_filename (filename : string) : string :=
  if negb (Text.endswith filename ".csv") then (filename ++ ".csv")%string
  else filename.

Inductive Written : Type :=
| File (header : list string) (rows : list (list Py.value))
| ValueError (msg : string) (header_written : bool).

(** [DictWriter._dict_to_list] with the default [extrasaction='raise'] and
    [restval='']: a key outside [fieldnames] is refused. *)
Definition _dict_to_list (rowdict : Dict.t Py.value)
  : option (list Py.value) :=
  if forallb (fun k => existsb (String.eqb k) fieldnames) (Dict.keys rowdict)
  then Some (map (fun key => from_option (Py.VStr "") (Dict.get key rowdict))
               fieldnames)
  else None.

Fixpoint writerows (rowdicts : list (Dict.t Py.value))
  : option (list (list Py.value)) :=
  match rowdicts with
  | [] => Some []
  | rowdict :: rest =>
      match _dict_to_list rowdict with
      | None => None
      | Some row =>
          match writerows rest with
          | Some rows => Some (row :: rows)
          | None => None
          end
      end
  end.

(** [save_to_csv]: the rows as [csv.DictWriter] receives them. *)
Definition save_to_csv (businesses : list (Dict.t Py.value)) : Written :=
  match businesses with
  | [] => ValueError "No businesses to save" false
  | _ :: _ =>
      match writerows businesses with
      | Some rows => File fieldnames rows
      | None => ValueError "dict contains fields not in fieldnames" true
      end
  end.

End Save.

(** ** A second scripted network, with web sites to look up *)

Module Demo2.

Definition fetch (url : string) (w : nat) : reply (Z * string) * nat :=
  if url =? "https://daenzo.example.org" then (Ok (200%Z, "home"), S w)
  else if url =? "https://daenzo.example.org/contact"
  then (Ok (200%Z, "contact"), S w)
  else (RequestException "no route to host", S w).

Definition findall (text : string) : list string :=
  if text =? "home" then ["webmaster@Example.com"]
  else if text =? "contact" then ["you@yourdomain.it"; "Ciao@DaEnzo.it"]
  else [].

Definition details : GoogleWire.PlaceDetails :=
  GoogleWire.mkPlaceDetails (Some "Da Enzo") (Some "Via dei Vascellari 29")
    None (Some "https://daenzo.example.org") None None None None [].

Definition google (api_key : string) (request : GoogleWire.Request)
  (w : nat) : reply GoogleWire.Json * nat :=
  match request with
  | GoogleWire.Details _ => (Ok (Demo.google_ok [] details), S w)
  | _ => Demo.google api_key request w
  end.

Definition net : Network := {|
  World := nat;
  google_http := google;
  nominatim_http := Demo.nominatim;
  overpass_http := Demo.overpass;
  yelp_http := Demo.yelp;
  scrape_email := EmailDiscovery.discover (H := Demo.net) fetch findall;
  str_float := fun q => if Qeq_bool q (9 # 2)%Q then "4.5" else "2.0";
  str_int := fun n => NilZero.string_of_int (Z.to_int n)
|}.

End Demo2.

(** ** Specification-side definitions *)

(** The distinct elements of a list, each at the place of its first
    occurrence. *)
Fixpoint first_seen (ks : list string) : list string :=
  match ks with
  | [] => []
  | k :: ks' => k :: filter (fun k' => negb (k' =? k)) (first_seen ks')
  end.

(** Number of records of [l] whose identity is [k]. *)
Definition count_identity (k : string) (l : list Business) : nat :=
  length (filter (fun r => dedup_key r =? k) l).

Definition memb (k : string) (ks : list string) : bool :=
  existsb (String.eqb k) ks.

(** Names of the elements of an Overpass answer that are nodes and carry a
    [name] tag, in order. *)
Definition named_nodes (elements : list OsmWire.Element) : list string :=
  flat_map
    (fun element =>
       match OsmWire.type element with
       | Some t =>
           if t =? "node" then
             match Dict.get "name" (from_option [] (OsmWire.tags element))
             with
             | Some n => [n]
             | None => []
             end
           else []
       | None => []
       end)
    elements.

(** The survivor of the identity [k] after one more record: the record
    itself when it is the first of its identity or when
    [_business_has_more_info] prefers it, the survivor so far otherwise. *)
Definition survivor_step (k : string) (survivor : option Business)
  (business : Business) : option Business :=
  if dedup_key business =? k then
    match survivor with
    | None => Some business
    | Some existing =>
        if _business_has_more_info business existing
        then Some business
        else Some existing
    end
  else survivor.

Definition option_list {A : Type} (o : option A) : list A :=
  match o with Some a => [a] | None => [] end.

(** The records of a response: none when the route answers with an
    error. *)
Definition page_results (r : Routes.Response) : list Business :=
  match r with
  | Routes.Success body => Routes.results body
  | Routes.ServerError _ => []
  end.

(** Every list kept in the cache has pairwise distinct identities. *)
Definition cache_distinct (cache : Dict.t (list Business)) : Prop :=
  forall key cached,
    Dict.get key cache = Some cached -> NoDup (map dedup_key cached).

(** The components typed [locality], and those typed [country] and not
    [locality]. *)
Definition is_locality (c : GoogleWire.Component) : bool :=
  GooglePlacesAPI.mem_string "locality" (GoogleWire.types c).

Definition is_country_only (c : GoogleWire.Component) : bool :=
  negb (is_locality c)
  && GooglePlacesAPI.mem_string "country" (GoogleWire.types c).

(** Two records are in an exact tie when no rule can tell them apart: they
    agree on having an email, on having a phone number and on coming from
    Google Places, and they have the same number of populated fields. *)
Definition exact_tie (a b : Business) : Prop :=
  Py.str_truthy (Email a) = Py.str_truthy (Email b)
  /\ Py.str_truthy (Phone_Number a) = Py.str_truthy (Phone_Number b)
  /\ (API_Source a =? "Google Places API")
     = (API_Source b =? "Google Places API")
  /\ count_truthy a = count_truthy b.

(** Every stored record sits under its own key. *)
Definition well_keyed (d : Dict.t Business) : Prop :=
  forall k v, In (k, v) d -> dedup_key v = k.

(** * Facts about the dictionary *)

Section DictFacts.
Variable V : Type.
Implicit Types (d : Dict.t V) (k : string) (v : V).

Lemma memb_true_iff k ks : memb k ks = true <-> In k ks.
Proof.
  unfold memb. rewrite existsb_exists. split.
  - intros [x [Hin Heq]]. apply String.eqb_eq in Heq. now subst.
  - intro Hin. exists k. split; [assumption | apply String.eqb_refl].
Qed.

Lemma memb_false_iff k ks : memb k ks = false <-> ~ In k ks.
Proof.
  rewrite <- memb_true_iff. destruct (memb k ks); intuition congruence.
Qed.

Lemma memb_app k ks1 ks2 : memb k (ks1 ++ ks2) = memb k ks1 || memb k ks2.
Proof. unfold memb. apply existsb_app. Qed.

Lemma get_none_memb k d : Dict.get k d = None <-> memb k (Dict.keys d) = false.
Proof.
  induction d as [| [k' v'] d IH]; simpl.
  - tauto.
  - destruct (k =? k'); simpl; [split; discriminate | exact IH].
Qed.

Lemma keys_set_present k v d :
  memb k (Dict.keys d) = true -> Dict.keys (Dict.set k v d) = Dict.keys d.
Proof.
  induction d as [| [k' v'] d IH]; simpl; [discriminate |].
  destruct (k =? k') eqn:E; simpl; [reflexivity |].
  intro Hm. now rewrite IH.
Qed.

Lemma set_absent k v d :
  memb k (Dict.keys d) = false ->
  Dict.set k v d = d ++ [(k, v)].
Proof.
  induction d as [| [k' v'] d IH]; simpl; [reflexivity |].
  destruct (k =? k') eqn:E; simpl; [discriminate |].
  intro Hm. now rewrite IH.
Qed.

Lemma in_set k v d k0 v0 :
  In (k0, v0) (Dict.set k v d) -> In (k0, v0) d \/ (k0 = k /\ v0 = v).
Proof.
  induction d as [| [k' v'] d IH]; simpl.
  - intros [[= <- <-] | []]. now right.
  - destruct (k =? k') eqn:E; simpl.
    + apply String.eqb_eq in E. subst k'.
      intros [[= <- <-] | Hin]; [now right | left; now right].
    + intros [Heq | Hin]; [left; now left |].
      destruct (IH Hin) as [Hd | Hnew]; [left; now right | now right].
Qed.

End DictFacts.

Arguments get_none_memb {V} k d.
Arguments keys_set_present {V} k v d.
Arguments set_absent {V} k v d.
Arguments in_set {V} k v d k0 v0.

(** * Facts about [first_seen] *)

Lemma filter_twice {A : Type} (f g : A -> bool) (l : list A) :
  filter f (filter g l) = filter (fun x => g x && f x) l.
Proof.
  induction l as [| a l IH]; simpl; [reflexivity |].
  destruct (g a); simpl; [destruct (f a) |]; now rewrite IH.
Qed.

Lemma first_seen_in k ks : In k (first_seen ks) <-> In k ks.
Proof.
  induction ks as [| k0 ks IH]; simpl; [tauto |].
  rewrite filter_In, IH, negb_true_iff, String.eqb_neq.
  destruct (string_dec k0 k) as [-> | Hne]; [tauto |].
  split; [tauto |]. intros [Heq | Hin]; [now left | right].
  split; [assumption | congruence].
Qed.

Lemma first_seen_nodup ks : NoDup (first_seen ks).
Proof.
  induction ks as [| k0 ks IH]; simpl; constructor.
  - rewrite filter_In, negb_true_iff, String.eqb_neq. tauto.
  - now apply NoDup_filter.
Qed.

(** * Facts about the duplicate filter *)

Lemma dedupe_step_keys d b :
  Dict.keys (dedupe_step d b)
  = Dict.keys d
      ++ (if memb (dedup_key b) (Dict.keys d) then [] else [dedup_key b]).
Proof.
  unfold dedupe_step.
  destruct (Dict.get (dedup_key b) d) as [existing |] eqn:Hget.
  - assert (Hm : memb (dedup_key b) (Dict.keys d) = true).
    { destruct (memb (dedup_key b) (Dict.keys d)) eqn:E; [reflexivity |].
      apply get_none_memb in E. congruence. }
    rewrite Hm, app_nil_r.
    destruct (_business_has_more_info b existing); [| reflexivity].
    now apply keys_set_present.
  - apply get_none_memb in Hget. rewrite Hget.
    rewrite (set_absent _ _ _ Hget). unfold Dict.keys.
    now rewrite map_app.
Qed.

Lemma dedupe_step_in d b k v :
  In (k, v) (dedupe_step d b) -> In (k, v) d \/ (k = dedup_key b /\ v = b).
Proof.
  unfold dedupe_step.
  destruct (Dict.get (dedup_key b) d) as [existing |];
    [destruct (_business_has_more_info b existing) |];
    auto using in_set.
Qed.

Lemma dedupe_step_well_keyed d b :
  well_keyed d -> well_keyed (dedupe_step d b).
Proof.
  intros Hwk k v Hin.
  destruct (dedupe_step_in _ _ _ _ Hin) as [Hd | [-> ->]];
    [now apply Hwk | reflexivity].
Qed.

Lemma fold_well_keyed l : forall d,
  well_keyed d -> well_keyed (fold_left dedupe_step l d).
Proof.
  induction l as [| b l IH]; simpl; intros d Hwk; [assumption |].
  apply IH. now apply dedupe_step_well_keyed.
Qed.

Lemma fold_in l : forall d k v,
  In (k, v) (fold_left dedupe_step l d) -> In (k, v) d \/ In v l.
Proof.
  induction l as [| b l IH]; simpl; intros d k v Hin; [now left |].
  destruct (IH _ _ _ Hin) as [Hstep | Hl]; [| right; now right].
  destruct (dedupe_step_in _ _ _ _ Hstep) as [Hd | [_ ->]];
    [now left | right; now left].
Qed.

Lemma fold_keys l : forall d,
  Dict.keys (fold_left dedupe_step l d)
  = Dict.keys d
      ++ filter (fun k => negb (memb k (Dict.keys d)))
           (first_seen (map dedup_key l)).
Proof.
  induction l as [| b l IH]; simpl; intro d.
  - now rewrite app_nil_r.
  - rewrite IH, dedupe_step_keys.
    set (kb := dedup_key b). set (fs := first_seen (map dedup_key l)).
    destruct (memb kb (Dict.keys d)) eqn:Hm; simpl.
    + rewrite app_nil_r. f_equal. rewrite filter_twice.
      apply filter_ext. intro k.
      destruct (k =? kb) eqn:E; simpl; [| reflexivity].
      apply String.eqb_eq in E. subst k. now rewrite Hm.
    + rewrite <- app_assoc. simpl. f_equal. f_equal. rewrite filter_twice.
      apply filter_ext. intro k. rewrite memb_app. simpl.
      rewrite orb_false_r, negb_orb. apply andb_comm.
Qed.

Lemma values_keys d :
  well_keyed d -> map dedup_key (Dict.values d) = Dict.keys d.
Proof.
  unfold Dict.values, Dict.keys. rewrite map_map.
  intro Hwk. apply map_ext_in. intros [k v] Hin. simpl. now apply Hwk.
Qed.

Lemma well_keyed_nil : well_keyed [].
Proof. intros k v []. Qed.

Lemma dedupe_keys l :
  map dedup_key (filter_duplicate_businesses l) = first_seen (map dedup_key l).
Proof.
  unfold filter_duplicate_businesses.
  rewrite values_keys by (apply fold_well_keyed, well_keyed_nil).
  rewrite fold_keys. simpl.
  apply forallb_filter_id. apply forallb_forall. reflexivity.
Qed.

Lemma dedupe_subset l r :
  In r (filter_duplicate_businesses l) -> In r l.
Proof.
  unfold filter_duplicate_businesses, Dict.values. intro Hin.
  apply in_map_iff in Hin. destruct Hin as [[k v] [Heq Hin]]. simpl in Heq.
  subst v. destruct (fold_in _ _ _ _ Hin) as [[] | Hl]. assumption.
Qed.

Lemma count_identity_nodup k l :
  NoDup (map dedup_key l) -> In k (map dedup_key l) -> count_identity k l = 1.
Proof.
  unfold count_identity.
  induction l as [| r l IH]; simpl; intros Hnd Hin; [contradiction |].
  inversion Hnd as [| ? ? Hnotin Hnd']; subst.
  destruct (dedup_key r =? k) eqn:E; simpl.
  - apply String.eqb_eq in E. subst k. f_equal.
    apply length_zero_iff_nil.
    destruct (filter (fun r0 => dedup_key r0 =? dedup_key r) l)
      as [| x xs] eqn:Hf; [reflexivity | exfalso].
    assert (Hx : In x (filter (fun r0 => dedup_key r0 =? dedup_key r) l))
      by (rewrite Hf; now left).
    apply filter_In in Hx. destruct Hx as [Hxl Hxk].
    apply String.eqb_eq in Hxk. apply Hnotin. rewrite <- Hxk.
    now apply in_map.
  - apply String.eqb_neq in E. destruct Hin as [Heq | Hin]; [congruence |].
    now apply IH.
Qed.

(** Records with pairwise distinct identities, none of them in the
    dictionary yet, are appended one after the other. *)
Lemma fold_fresh l : forall d,
  NoDup (map dedup_key l) ->
  (forall b, In b l -> memb (dedup_key b) (Dict.keys d) = false) ->
  fold_left dedupe_step l d = d ++ map (fun b => (dedup_key b, b)) l.
Proof.
  induction l as [| b l IH]; simpl; intros d Hnd Hfresh.
  - now rewrite app_nil_r.
  - inversion Hnd as [| ? ? Hnotin Hnd']; subst.
    assert (Hb : memb (dedup_key b) (Dict.keys d) = false)
      by (apply Hfresh; now left).
    assert (Hstep : dedupe_step d b = d ++ [(dedup_key b, b)]).
    { unfold dedupe_step. rewrite (proj2 (get_none_memb _ _) Hb).
      now apply set_absent. }
    rewrite Hstep, IH; [now rewrite <- app_assoc | assumption |].
    intros b' Hb'. unfold Dict.keys. rewrite map_app. fold (Dict.keys d).
    rewrite memb_app, (Hfresh b' (or_intror Hb')). simpl.
    rewrite orb_false_r. apply String.eqb_neq. intro Heq.
    apply Hnotin. rewrite <- Heq. now apply in_map.
Qed.

Lemma dedupe_distinct l :
  NoDup (map dedup_key l) -> filter_duplicate_businesses l = l.
Proof.
  intro Hnd. unfold filter_duplicate_businesses.
  rewrite fold_fresh by (assumption || reflexivity). simpl.
  unfold Dict.values. rewrite map_map. simpl. apply map_id.
Qed.

Lemma count_identity_absent k l :
  ~ In k (map dedup_key l) -> count_identity k l = 0%nat.
Proof.
  unfold count_identity. intro Hnotin. apply length_zero_iff_nil.
  destruct (filter (fun r => dedup_key r =? k) l) as [| x xs] eqn:Hf;
    [reflexivity | exfalso].
  assert (Hx : In x (filter (fun r => dedup_key r =? k) l))
    by (rewrite Hf; now left).
  apply filter_In in Hx. destruct Hx as [Hxl Hxk].
  apply String.eqb_eq in Hxk. apply Hnotin. rewrite <- Hxk.
  now apply in_map.
Qed.

Lemma dedupe_keys_nodup l :
  NoDup (map dedup_key (filter_duplicate_businesses l)).
Proof. rewrite dedupe_keys. apply first_seen_nodup. Qed.

(** * The duplicate filter: identity, idempotence, order *)

Lemma lower_app (s1 s2 : string) :
  Py.lower (s1 ++ s2) = (Py.lower s1 ++ Py.lower s2)%string.
Proof.
  induction s1 as [| c s1 IH]; simpl; [reflexivity | now rewrite IH].
Qed.

(** Records with the same lower-cased name and the same lower-cased address
    have the same key. *)
Lemma dedup_key_of_pair a b :
  Py.lower (Business_Name a) = Py.lower (Business_Name b) ->
  Py.lower (Address a) = Py.lower (Address b) ->
  dedup_key a = dedup_key b.
Proof.
  intros Hname Haddress. unfold dedup_key.
  rewrite !lower_app. now rewrite Hname, Haddress.
Qed.

(** C1. The output of [filter_duplicate_businesses] holds exactly one record
    for the identity of any two input records that agree on the lower-cased
    name and the lower-cased address, or on the key built from them; for
    every key, it holds one record when the key is the identity of some input
    record and none otherwise; and every output record is one of the input
    records. *)
Theorem dedupe_one_record_per_identity (l : list Business) :
  (forall a b, In a l -> In b l ->
     Py.lower (Business_Name a) = Py.lower (Business_Name b) ->
     Py.lower (Address a) = Py.lower (Address b) ->
     dedup_key a = dedup_key b
     /\ count_identity (dedup_key a) (filter_duplicate_businesses l) = 1%nat)
  /\ (forall a b, In a l -> In b l -> dedup_key a = dedup_key b ->
        count_identity (dedup_key a) (filter_duplicate_businesses l) = 1%nat)
  /\ (forall k,
        count_identity k (filter_duplicate_businesses l)
        = if memb k (map dedup_key l) then 1%nat else 0%nat)
  /\ (forall r, In r (filter_duplicate_businesses l) -> In r l).
Proof.
  assert (Hone : forall k, In k (map dedup_key l) ->
            count_identity k (filter_duplicate_businesses l) = 1%nat).
  { intros k Hin. apply count_identity_nodup; [apply dedupe_keys_nodup |].
    rewrite dedupe_keys. now apply first_seen_in. }
  split; [| split; [| split]].
  - intros a b Ha _ Hname Haddress.
    split; [now apply dedup_key_of_pair | apply Hone; now apply in_map].
  - intros a b Ha _ _. apply Hone. now apply in_map.
  - intro k. destruct (memb k (map dedup_key l)) eqn:Hm.
    + apply Hone. now apply memb_true_iff.
    + apply count_identity_absent. rewrite dedupe_keys, first_seen_in.
      now apply memb_false_iff.
  - apply dedupe_subset.
Qed.

(** C5. Filtering duplicates twice gives the same list as filtering
    once. *)
Theorem dedupe_idempotent (x : list Business) :
  filter_duplicate_businesses (filter_duplicate_businesses x)
  = filter_duplicate_businesses x.
Proof. apply dedupe_distinct, dedupe_keys_nodup. Qed.

Lemma dedupe_snoc_kept l new existing :
  Dict.get (dedup_key new) (fold_left dedupe_step l []) = Some existing ->
  _business_has_more_info new existing = false ->
  filter_duplicate_businesses (l ++ [new]) = filter_duplicate_businesses l.
Proof.
  intros Hget Htie. unfold filter_duplicate_businesses.
  rewrite fold_left_app. simpl. unfold dedupe_step at 1.
  now rewrite Hget, Htie.
Qed.

(** The new record replaces the survivor exactly when one of the four rules
    prefers it: it has an email and the survivor has none, it has a phone
    number and the survivor has none, it comes from Google Places and the
    survivor does not, or it has more populated fields. *)
Lemma has_more_info_iff new existing :
  _business_has_more_info new existing = true
  <-> (Py.str_truthy (Email new) = true
       /\ Py.str_truthy (Email existing) = false)
      \/ (Py.str_truthy (Phone_Number new) = true
          /\ Py.str_truthy (Phone_Number existing) = false)
      \/ (API_Source new = "Google Places API"
          /\ API_Source existing <> "Google Places API")
      \/ (count_truthy existing < count_truthy new)%nat.
Proof.
  unfold _business_has_more_info.
  rewrite <- (String.eqb_eq (API_Source new)).
  rewrite <- (String.eqb_neq (API_Source existing)).
  rewrite <- Nat.ltb_lt.
  destruct (Py.str_truthy (Email new));
    destruct (Py.str_truthy (Email existing));
    destruct (Py.str_truthy (Phone_Number new));
    destruct (Py.str_truthy (Phone_Number existing));
    destruct (API_Source new =? "Google Places API");
    destruct (API_Source existing =? "Google Places API");
    destruct (count_truthy existing <? count_truthy new)%nat;
    cbn [andb negb]; intuition congruence.
Qed.

(** In an exact tie neither record is preferred to the other. *)
Lemma exact_tie_no_preference a b :
  exact_tie a b ->
  _business_has_more_info a b = false /\ _business_has_more_info b a = false.
Proof.
  intros (Hemail & Hphone & Hsource & Hcount).
  unfold _business_has_more_info. rewrite Hemail, Hphone, Hsource, Hcount.
  rewrite Nat.ltb_irrefl.
  destruct (Py.str_truthy (Email b));
    destruct (Py.str_truthy (Phone_Number b));
    destruct (API_Source b =? "Google Places API"); split; reflexivity.
Qed.

(** The survivor of an identity is found under its key. *)
Lemma get_of_value (d : Dict.t Business) v :
  well_keyed d -> NoDup (Dict.keys d) -> In v (Dict.values d) ->
  Dict.get (dedup_key v) d = Some v.
Proof.
  induction d as [| [k0 v0] d IH]; simpl; intros Hwk Hnd Hin;
    [contradiction |].
  inversion Hnd as [| ? ? Hnotin Hnd']; subst.
  assert (Hk0 : dedup_key v0 = k0) by (apply Hwk; now left).
  assert (Hwk' : well_keyed d) by (intros k1 v1 H1; apply Hwk; now right).
  destruct Hin as [-> | Hin].
  - now rewrite Hk0, String.eqb_refl.
  - destruct (dedup_key v =? k0) eqn:E; [| now apply IH].
    apply String.eqb_eq in E. exfalso. apply Hnotin. rewrite <- E.
    rewrite <- (values_keys d Hwk'). now apply in_map.
Qed.

Lemma survivor_in_dictionary l existing :
  In existing (filter_duplicate_businesses l) ->
  Dict.get (dedup_key existing) (fold_left dedupe_step l []) = Some existing.
Proof.
  intro Hin. apply get_of_value; [| | exact Hin].
  - apply fold_well_keyed, well_keyed_nil.
  - rewrite <- values_keys by (apply fold_well_keyed, well_keyed_nil).
    apply dedupe_keys_nodup.
Qed.

(** C6. The identities of the output are the identities of the input in the
    order of their first occurrence, whatever replacements happened on the
    way.  A record replaces the survivor of its identity exactly when one of
    the four rules prefers it; a record in an exact tie with the survivor
    (same email presence, same phone presence, same premium-source status,
    same number of populated fields) is preferred by none, so it leaves the
    output as it was, and of two colliding records in an exact tie the first
    stays. *)
Theorem dedupe_first_seen_order (l : list Business) :
  map dedup_key (filter_duplicate_businesses l)
  = first_seen (map dedup_key l)
  /\ (forall new existing,
        _business_has_more_info new existing = true
        <-> (Py.str_truthy (Email new) = true
             /\ Py.str_truthy (Email existing) = false)
            \/ (Py.str_truthy (Phone_Number new) = true
                /\ Py.str_truthy (Phone_Number existing) = false)
            \/ (API_Source new = "Google Places API"
                /\ API_Source existing <> "Google Places API")
            \/ (count_truthy existing < count_truthy new)%nat)
  /\ (forall new existing,
        In existing (filter_duplicate_businesses l) ->
        dedup_key existing = dedup_key new ->
        exact_tie new existing ->
        filter_duplicate_businesses (l ++ [new])
        = filter_duplicate_businesses l)
  /\ (forall first second,
        dedup_key first = dedup_key second ->
        exact_tie second first ->
        filter_duplicate_businesses [first; second] = [first])
  /\ (forall new existing,
        Dict.get (dedup_key new) (fold_left dedupe_step l []) = Some existing ->
        _business_has_more_info new existing = false ->
        filter_duplicate_businesses (l ++ [new])
        = filter_duplicate_businesses l)
  /\ (forall first second,
        dedup_key first = dedup_key second ->
        _business_has_more_info second first = false ->
        filter_duplicate_businesses [first; second] = [first]).
Proof.
  assert (Hpair : forall first second,
            dedup_key first = dedup_key second ->
            _business_has_more_info second first = false ->
            filter_duplicate_businesses [first; second] = [first]).
  { intros first second Hkey Htie.
    apply (dedupe_snoc_kept [first] second first); [| assumption].
    simpl. unfold dedupe_step. simpl. rewrite Hkey.
    now rewrite String.eqb_refl. }
  split; [apply dedupe_keys |].
  split; [apply has_more_info_iff |].
  split; [| split; [| split; [apply dedupe_snoc_kept | exact Hpair]]].
  - intros new existing Hin Hkey Htie.
    apply (dedupe_snoc_kept l new existing).
    + rewrite <- Hkey. now apply survivor_in_dictionary.
    + exact (proj1 (exact_tie_no_preference _ _ Htie)).
  - intros first second Hkey Htie. apply Hpair; [assumption |].
    exact (proj1 (exact_tie_no_preference _ _ Htie)).
Qed.

(** Two records of one business in an exact tie: the second differs from
    the first in the letter case of its name and in its city only. *)
Example exact_tie_keeps_the_first :
  let second :=
    mkBusiness "DA ENZO" "Restaurant" "Via dei Vascellari 29" "Roma" "Italy"
      "" "info@daenzo.it" "" (Py.VStr "") (Py.VStr "") (Py.VStr "")
      (Py.VStr "") "OpenStreetMap API" in
  exact_tie second Demo.with_email
  /\ filter_duplicate_businesses [Demo.with_email; second]
     = [Demo.with_email].
Proof. repeat split. Qed.

(** * The tie-break rules *)

(** The record that comes second wins whenever it has an email and the
    survivor has none. *)
Lemma emailed_newcomer_wins existing new :
  Py.str_truthy (Email new) = true ->
  Py.str_truthy (Email existing) = false ->
  _business_has_more_info new existing = true.
Proof.
  intros Hn He. unfold _business_has_more_info. now rewrite Hn, He.
Qed.

Lemma dedupe_pair_replaced first second :
  dedup_key first = dedup_key second ->
  _business_has_more_info second first = true ->
  filter_duplicate_businesses [first; second] = [second].
Proof.
  intros Hkey Hmore. unfold filter_duplicate_businesses. cbn [fold_left].
  change (dedupe_step [] first) with [(dedup_key first, first)].
  unfold dedupe_step. cbn [Dict.get].
  rewrite <- Hkey, String.eqb_refl, Hmore. cbn [Dict.set].
  now rewrite String.eqb_refl.
Qed.

(** Of two colliding records, the one with an email wins when it is the
    second and the first has none. *)
Lemma emailed_second_survives first second :
  dedup_key first = dedup_key second ->
  Py.str_truthy (Email second) = true ->
  Py.str_truthy (Email first) = false ->
  filter_duplicate_businesses [first; second] = [second].
Proof.
  intros Hkey Hsecond Hfirst. apply dedupe_pair_replaced; [assumption |].
  now apply emailed_newcomer_wins.
Qed.

(** Of two colliding records that agree on having an email and on having a
    phone number, the one from Google Places wins when it is the second and
    the first is from another provider. *)
Lemma premium_second_survives first second :
  dedup_key first = dedup_key second ->
  Py.str_truthy (Email first) = Py.str_truthy (Email second) ->
  Py.str_truthy (Phone_Number first) = Py.str_truthy (Phone_Number second) ->
  API_Source second = "Google Places API" ->
  API_Source first <> "Google Places API" ->
  filter_duplicate_businesses [first; second] = [second].
Proof.
  intros Hkey Hemail Hphone Hsecond Hfirst.
  apply dedupe_pair_replaced; [assumption |].
  unfold _business_has_more_info. rewrite Hemail, Hphone, Hsecond.
  apply String.eqb_neq in Hfirst. rewrite Hfirst.
  destruct (Py.str_truthy (Email second));
    destruct (Py.str_truthy (Phone_Number second)); reflexivity.
Qed.

(** C2, at the failing input.  Two colliding records, only the first with
    an email, the second with a phone number the first lacks: the record
    without the email is the one returned. *)
Theorem email_holder_loses_to_later_phone :
  dedup_key Demo.with_email = dedup_key Demo.with_phone
  /\ Py.str_truthy (Email Demo.with_email) = true
  /\ Py.str_truthy (Email Demo.with_phone) = false
  /\ filter_duplicate_businesses [Demo.with_email; Demo.with_phone]
     = [Demo.with_phone]
  /\ filter_duplicate_businesses [Demo.with_phone; Demo.with_email]
     = [Demo.with_email].
Proof. repeat split; reflexivity. Qed.

(** C3, at the failing input.  Two colliding records without email and
    without phone, the first from Google Places, the second from another
    provider with more populated fields: the second is the one returned. *)
Theorem premium_source_loses_to_later_fuller_record :
  dedup_key Demo.from_google = dedup_key Demo.from_osm
  /\ Py.str_truthy (Email Demo.from_google)
     = Py.str_truthy (Email Demo.from_osm)
  /\ Py.str_truthy (Phone_Number Demo.from_google)
     = Py.str_truthy (Phone_Number Demo.from_osm)
  /\ API_Source Demo.from_google = "Google Places API"
  /\ API_Source Demo.from_osm <> "Google Places API"
  /\ filter_duplicate_businesses [Demo.from_google; Demo.from_osm]
     = [Demo.from_osm]
  /\ filter_duplicate_businesses [Demo.from_osm; Demo.from_google]
     = [Demo.from_google].
Proof. repeat split; try reflexivity. discriminate. Qed.

(** * The providers *)

Lemma ltb_lt (a b : Q) : Py.ltb a b = true <-> (a < b)%Q.
Proof.
  unfold Py.ltb. rewrite negb_true_iff. split.
  - intro Hle. apply Qnot_le_lt. intro Hc.
    apply Qle_bool_iff in Hc. congruence.
  - intro Hlt. destruct (Qle_bool b a) eqn:E; [| reflexivity].
    apply Qle_bool_iff in E. exfalso. exact (Qlt_not_le _ _ Hlt E).
Qed.

Section ProviderFacts.
Context `{Network}.

Lemma enrich_email_name b w :
  Business_Name (fst (enrich_email b w)) = Business_Name b.
Proof.
  unfold enrich_email. destruct (Py.str_truthy (Website b)); [| reflexivity].
  destruct (extract_email_from_website (Website b) w) as [[email |] w'];
    [| reflexivity].
  now destruct (Py.str_truthy email).
Qed.

Lemma google_loop_skips key category min_rating places : forall sr bs w,
  GooglePlacesAPI.places_loop key category min_rating places sr bs w
  = GooglePlacesAPI.places_loop key category min_rating
      (filter (fun p => negb (GooglePlacesAPI.rating_too_low p min_rating))
         places) sr bs w.
Proof.
  induction places as [| p places IH]; intros sr bs w; [reflexivity |].
  cbn [filter GooglePlacesAPI.places_loop].
  destruct (GooglePlacesAPI.rating_too_low p min_rating) eqn:E;
    cbn [negb]; [apply IH |].
  cbn [GooglePlacesAPI.places_loop]. rewrite E.
  destruct (GooglePlacesAPI.visit_place key category p sr bs w);
    [apply IH | reflexivity].
Qed.

Lemma yelp_loop_skips key location category radius min_rating candidates :
  forall sr bs w,
  YelpFusionAPI.businesses_loop key location category radius min_rating
    candidates sr bs w
  = YelpFusionAPI.businesses_loop key location category radius min_rating
      (filter (fun c => negb (YelpFusionAPI.rating_too_low c min_rating))
         candidates) sr bs w.
Proof.
  induction candidates as [| c candidates IH]; intros sr bs w;
    [reflexivity |].
  cbn [filter YelpFusionAPI.businesses_loop].
  destruct (YelpFusionAPI.rating_too_low c min_rating) eqn:E;
    cbn [negb]; [apply IH |].
  cbn [YelpFusionAPI.businesses_loop]. rewrite E.
  destruct (YelpFusionAPI.usable_id c) as [business_id |]; [| apply IH].
  destruct (YelpFusionAPI.visit_business key location category radius c
              business_id sr bs w); [apply IH | reflexivity].
Qed.

Lemma osm_loop_names category location_data elements : forall bs w,
  map Business_Name
    (fst (OpenStreetMapAPI.elements_loop category location_data elements
            bs w))
  = map Business_Name bs ++ named_nodes elements.
Proof.
  induction elements as [| e elements IH]; intros bs w.
  - simpl. now rewrite app_nil_r.
  - cbn [OpenStreetMapAPI.elements_loop named_nodes flat_map].
    fold (named_nodes elements).
    unfold OpenStreetMapAPI.not_a_node.
    destruct (OsmWire.type e) as [t |]; [| apply IH].
    destruct (t =? "node"); cbn [negb]; [| apply IH].
    unfold OpenStreetMapAPI.has_key.
    set (tags := from_option [] (OsmWire.tags e)).
    destruct (Dict.get "name" tags) as [n |] eqn:Hname; cbn [negb];
      [| apply IH].
    destruct (OpenStreetMapAPI.enrich_missing_email
                (OpenStreetMapAPI.business_of_element category location_data
                   e tags) w) as [business_data w1] eqn:Henrich.
    rewrite IH, map_app, <- app_assoc. f_equal. cbn [map app]. f_equal.
    assert (Hn : Business_Name business_data = n); [| now rewrite Hn].
    change business_data with (fst (business_data, w1)).
    rewrite <- Henrich. unfold OpenStreetMapAPI.enrich_missing_email.
    destruct (_ && _);
      [rewrite enrich_email_name |]; cbn; now rewrite Hname.
Qed.

End ProviderFacts.

(** * Transport failures *)

(** What the Google and OpenStreetMap clients do when the transport fails
    on one of their first calls, and what the two loops do when it fails on
    the details call for one candidate. *)
Lemma transport_failures_handled `{Network} :
  (forall key location category radius_km min_rating w msg w',
     google_http key (GoogleWire.Geocode location) w
     = (RequestException msg, w') ->
     GooglePlacesAPI.search_businesses key location category radius_km
       min_rating w = ([], w'))
  /\ (forall key location category radius_km min_rating w geo w1 msg w2,
        google_http key (GoogleWire.Geocode location) w = (Ok geo, w1) ->
        GoogleWire.status geo = Some "OK" ->
        google_http key
          (GoogleWire.NearbySearch (GoogleWire.first_location geo)
             (radius_km * 1000)
             (GooglePlacesAPI.category_map (Py.lower category))) w1
        = (RequestException msg, w2) ->
        GooglePlacesAPI.search_businesses key location category radius_km
          min_rating w = ([], w2))
  /\ (forall location category radius_km min_rating w msg w',
        nominatim_http (OsmWire.Search location) w
        = (RequestException msg, w') ->
        OpenStreetMapAPI.search_businesses location category radius_km
          min_rating w = ([], w'))
  /\ (forall location category radius_km min_rating w place others w1 msg w2,
        nominatim_http (OsmWire.Search location) w
        = (Ok (place :: others), w1) ->
        overpass_http
          (OsmWire.Overpass
             (OpenStreetMapAPI.category_map (Py.lower category))
             (OsmWire.lat place) (OsmWire.lon place) radius_km) w1
        = (RequestException msg, w2) ->
        OpenStreetMapAPI.search_businesses location category radius_km
          min_rating w = ([], w2))
  /\ (forall key category min_rating place rest sr bs w msg w',
        GooglePlacesAPI.rating_too_low place min_rating = false ->
        google_http key (GoogleWire.Details (GoogleWire.place_id place)) w
        = (RequestException msg, w') ->
        GooglePlacesAPI.places_loop key category min_rating (place :: rest)
          sr bs w
        = GooglePlacesAPI.places_loop key category min_rating rest sr bs w')
  /\ (forall key location category radius min_rating candidate business_id
             rest sr bs w msg w',
        YelpFusionAPI.rating_too_low candidate min_rating = false ->
        YelpFusionAPI.usable_id candidate = Some business_id ->
        yelp_http key (YelpWire.BusinessDetails business_id) w
        = (RequestException msg, w') ->
        YelpFusionAPI.businesses_loop key location category radius
          min_rating (candidate :: rest) sr bs w
        = YelpFusionAPI.businesses_loop key location category radius
            min_rating rest sr bs w').
Proof.
  split; [| split; [| split; [| split; [| split]]]].
  - intros * Hgeo. unfold GooglePlacesAPI.search_businesses,
      GooglePlacesAPI._make_request. now rewrite Hgeo.
  - intros * Hgeo Hok Hnear. unfold GooglePlacesAPI.search_businesses,
      GooglePlacesAPI._make_request, GooglePlacesAPI.radius_meters.
    rewrite Hgeo. unfold GooglePlacesAPI.status_not_ok at 1.
    rewrite Hok. cbn [String.eqb Ascii.eqb Bool.eqb negb].
    now rewrite Hnear.
  - intros * Hsearch. unfold OpenStreetMapAPI.search_businesses,
      OpenStreetMapAPI._make_request. now rewrite Hsearch.
  - intros * Hsearch Hover. unfold OpenStreetMapAPI.search_businesses,
      OpenStreetMapAPI._make_request. rewrite Hsearch. now rewrite Hover.
  - intros * Hpass Hdetails. cbn [GooglePlacesAPI.places_loop].
    rewrite Hpass. unfold GooglePlacesAPI.visit_place,
      GooglePlacesAPI._get_place_details, GooglePlacesAPI._make_request.
    now rewrite Hdetails.
  - intros * Hpass Hid Hdetails. cbn [YelpFusionAPI.businesses_loop].
    rewrite Hpass, Hid. unfold YelpFusionAPI.visit_business,
      YelpFusionAPI._make_request. now rewrite Hdetails.
Qed.

(** Whenever the transport fails on the search call of the Yelp client,
    [search_businesses] raises. *)
Lemma yelp_search_raises `{Network} key location category radius_km
  min_rating w msg w' :
  yelp_http key
    (YelpWire.Search location
       (YelpFusionAPI.category_map (Py.lower category))
       (YelpFusionAPI.radius_meters radius_km) 50 None) w
  = (RequestException msg, w') ->
  YelpFusionAPI.search_businesses key location category radius_km
    min_rating w
  = (Raises (AttributeError "'str' object has no attribute 'get'"), w').
Proof.
  intro Hsearch. unfold YelpFusionAPI.search_businesses,
    YelpFusionAPI._make_request. now rewrite Hsearch.
Qed.

(** C8, at the failing input.  The search call of the Yelp client times
    out: [search_businesses] raises [AttributeError] where the claim has it
    return the empty list.  The Google client returns the empty list when
    its geocode call times out. *)
Theorem yelp_search_raises_on_timeout :
  yelp_http (Network := Demo.net) "y-key"
    (YelpWire.Search "offline" "bars" 5000 50 None) 0%nat
  = (RequestException "timed out", 1%nat)
  /\ YelpFusionAPI.search_businesses (H := Demo.net) "y-key" "offline" "bar"
       5 (7 # 2)%Q 0%nat
     = (Raises (AttributeError "'str' object has no attribute 'get'"),
        1%nat)
  /\ GooglePlacesAPI.search_businesses (H := Demo.net) "g-key" "offline" "bar"
       5 (7 # 2)%Q 0%nat
     = ([], 1%nat).
Proof. repeat split. Qed.

(** * Radius and rating threshold *)

(** C9. The Google client asks for [radius_km * 1000] meters and the Yelp
    client for the smaller of [radius_km * 1000] and [40000]: the nearby
    search and the Yelp search are sent with these radii.  Five kilometers
    are 5000 meters for both, and forty kilometers are sent to Yelp as
    40000 meters. *)
Theorem radius_conversion `{Network} :
  (forall radius_km,
     GooglePlacesAPI.radius_meters radius_km = (radius_km * 1000)%Z
     /\ YelpFusionAPI.radius_meters radius_km
        = Z.min (radius_km * 1000) 40000)
  /\ GooglePlacesAPI.radius_meters 5 = 5000%Z
  /\ YelpFusionAPI.radius_meters 5 = 5000%Z
  /\ YelpFusionAPI.radius_meters 40 = 40000%Z
  /\ (forall key location category radius_km min_rating w,
        GooglePlacesAPI.search_businesses key location category radius_km
          min_rating w
        = let (geocode_result, w1) :=
            GooglePlacesAPI._make_request key (GoogleWire.Geocode location) w
          in
          if GooglePlacesAPI.status_not_ok geocode_result then ([], w1)
          else
            let (search_result, w2) :=
              GooglePlacesAPI._make_request key
                (GoogleWire.NearbySearch
                   (GoogleWire.first_location geocode_result)
                   (radius_km * 1000)
                   (GooglePlacesAPI.category_map (Py.lower category))) w1 in
            if GooglePlacesAPI.status_not_ok search_result then ([], w2)
            else GooglePlacesAPI.places_loop key category min_rating
                   (GoogleWire.results search_result) search_result [] w2)
  /\ (forall key location category radius_km min_rating w,
        YelpFusionAPI.search_businesses key location category radius_km
          min_rating w
        = let (search_result, w1) :=
            YelpFusionAPI._make_request key
              (YelpWire.Search location
                 (YelpFusionAPI.category_map (Py.lower category))
                 (Z.min (radius_km * 1000) 40000) 50 None) w in
          match YelpWire.error search_result with
          | Some (YelpWire.ErrorText _) =>
              (Raises (AttributeError "'str' object has no attribute 'get'"),
               w1)
          | Some (YelpWire.ErrorObject _) => (Returns [], w1)
          | None =>
              let (businesses, w2) :=
                YelpFusionAPI.businesses_loop key location category
                  (Z.min (radius_km * 1000) 40000) min_rating
                  (YelpWire.businesses search_result) search_result [] w1 in
              (Returns businesses, w2)
          end).
Proof.
  assert (Hyelp : forall radius_km,
            YelpFusionAPI.radius_meters radius_km
            = Z.min (radius_km * 1000) 40000).
  { intro radius_km. unfold YelpFusionAPI.radius_meters.
    destruct (40000 <? radius_km * 1000)%Z eqn:E.
    - apply Z.ltb_lt in E. lia.
    - apply Z.ltb_ge in E. lia. }
  split; [| split; [| split; [| split; [| split]]]];
    try reflexivity.
  - intro radius_km. split; [reflexivity | apply Hyelp].
  - intros. unfold YelpFusionAPI.search_businesses. now rewrite Hyelp.
Qed.

(** C10. A Google candidate without a [rating] is never found too low,
    whatever the threshold; the candidates found too low are those with a
    rating strictly below it.  Such a candidate goes through the loop body,
    which starts with the details call, and when that call succeeds its
    record joins the result. *)
Theorem google_unrated_candidate_not_skipped `{Network} :
  (forall place min_rating,
     GoogleWire.rating place = None ->
     GooglePlacesAPI.rating_too_low place min_rating = false)
  /\ (forall place min_rating,
        GooglePlacesAPI.rating_too_low place min_rating = true
        <-> exists r, GoogleWire.rating place = Some r /\ (r < min_rating)%Q)
  /\ (forall key category min_rating place rest sr bs w,
        GoogleWire.rating place = None ->
        GooglePlacesAPI.places_loop key category min_rating (place :: rest)
          sr bs w
        = match GooglePlacesAPI.visit_place key category place sr bs w with
          | GooglePlacesAPI.Next sr' bs' w' =>
              GooglePlacesAPI.places_loop key category min_rating rest sr'
                bs' w'
          | GooglePlacesAPI.Break bs' w' => (bs', w')
          end)
  /\ (forall key category min_rating place rest sr bs w body w1,
        GoogleWire.rating place = None ->
        google_http key (GoogleWire.Details (GoogleWire.place_id place)) w
        = (Ok body, w1) ->
        GoogleWire.status body = Some "OK" ->
        GoogleWire.next_page_token sr = None ->
        GooglePlacesAPI.places_loop key category min_rating (place :: rest)
          sr bs w
        = let (business_data, w2) :=
            enrich_email
              (GooglePlacesAPI.business_of_details category
                 (GoogleWire.result body)) w1 in
          GooglePlacesAPI.places_loop key category min_rating rest sr
            (bs ++ [business_data]) w2).
Proof.
  assert (Hnone : forall place min_rating,
            GoogleWire.rating place = None ->
            GooglePlacesAPI.rating_too_low place min_rating = false).
  { intros place min_rating Hr. unfold GooglePlacesAPI.rating_too_low.
    now rewrite Hr. }
  split; [exact Hnone | split; [| split]].
  - intros place min_rating. unfold GooglePlacesAPI.rating_too_low.
    destruct (GoogleWire.rating place) as [r |].
    + rewrite ltb_lt. split.
      * intro Hlt. now exists r.
      * intros [r' [[= <-] Hlt]]. exact Hlt.
    + split; [discriminate | intros [r [[=] _]]].
  - intros * Hr. cbn [GooglePlacesAPI.places_loop].
    now rewrite (Hnone _ min_rating Hr).
  - intros * Hr Hdetails Hok Htoken. cbn [GooglePlacesAPI.places_loop].
    rewrite (Hnone _ min_rating Hr).
    unfold GooglePlacesAPI.visit_place, GooglePlacesAPI._get_place_details,
      GooglePlacesAPI._make_request.
    rewrite Hdetails. unfold GooglePlacesAPI.status_not_ok. rewrite Hok.
    cbn [String.eqb Ascii.eqb Bool.eqb negb].
    destruct (enrich_email _ w1) as [business_data w2].
    now rewrite Htoken.
Qed.

(** * The two callers *)

Section CallerFacts.
Context `{Network}.

Lemma search_calls_app t1 t2 :
  search_calls (t1 ++ t2) = search_calls t1 ++ search_calls t2.
Proof. unfold search_calls. apply flat_map_app. Qed.

Lemma dedupe_calls_app t1 t2 :
  dedupe_calls (t1 ++ t2) = (dedupe_calls t1 + dedupe_calls t2)%nat.
Proof. unfold dedupe_calls. now rewrite filter_app, length_app. Qed.

Lemma search_each_trace api location radius min_rating cats :
  forall all_businesses trace w,
  match App.search_each api location radius min_rating cats all_businesses
          trace w with
  | (Returns _, trace', _) =>
      search_calls trace' = search_calls trace ++ cats
      /\ dedupe_calls trace' = dedupe_calls trace
  | (Raises _, trace', _) => dedupe_calls trace' = dedupe_calls trace
  end.
Proof.
  induction cats as [| cat cats IH]; intros all_businesses trace w;
    cbn [App.search_each].
  - now rewrite app_nil_r.
  - destruct (api_search_businesses api location cat radius min_rating w)
      as [[cat_businesses | e] w1].
    + specialize (IH (all_businesses ++ cat_businesses)
                    (trace ++ [CallSearch cat; CallSleep]) w1).
      destruct (App.search_each _ _ _ _ cats _ _ w1) as [[[bs | e] trace'] w'].
      * destruct IH as [Hs Hd]. rewrite Hs, Hd.
        rewrite search_calls_app, dedupe_calls_app, <- app_assoc.
        split; [reflexivity | apply Nat.add_0_r].
      * rewrite IH, dedupe_calls_app. apply Nat.add_0_r.
    + rewrite dedupe_calls_app. apply Nat.add_0_r.
Qed.

(** With the category [all], when no search raises, the route of [app.py]
    has searched the six categories in turn and filtered the concatenation
    once. *)
Lemma app_all_categories config location category radius min_rating
  api_source w :
  Py.lower category = "all" ->
  match App.search_businesses config location category radius min_rating
          api_source w with
  | (Returns businesses, trace, _) =>
      search_calls trace = App.categories
      /\ dedupe_calls trace = 1%nat
      /\ exists all_businesses,
           In (CallDedupe all_businesses) trace
           /\ businesses = filter_duplicate_businesses all_businesses
  | (Raises _, trace, _) => dedupe_calls trace = 0%nat
  end.
Proof.
  intro Hall. unfold App.search_businesses. rewrite Hall.
  cbn [String.eqb Ascii.eqb Bool.eqb].
  pose proof (search_each_trace (select_api config api_source) location
                radius min_rating App.categories [] [] w) as Htrace.
  destruct (App.search_each _ _ _ _ App.categories [] [] w)
    as [[[all_businesses | e] trace] w1]; [| exact Htrace].
  destruct Htrace as [Hs Hd].
  rewrite search_calls_app, dedupe_calls_app, Hs, Hd. simpl.
  split; [reflexivity | split; [reflexivity |]].
  exists all_businesses. split; [| reflexivity].
  apply in_or_app. right. now left.
Qed.

(** With any other category, the route of [app.py] searches once and
    returns the list of the provider as it is: the filter is not called. *)
Lemma app_single_category config location category radius min_rating
  api_source w :
  Py.lower category <> "all" ->
  App.search_businesses config location category radius min_rating
    api_source w
  = let (outcome, w1) :=
      api_search_businesses (select_api config api_source) location category
        radius min_rating w in
    (outcome, [CallSearch category], w1).
Proof.
  intro Hsingle. unfold App.search_businesses.
  apply String.eqb_neq in Hsingle. rewrite Hsingle.
  now destruct (api_search_businesses _ location category radius min_rating w)
    as [[businesses | e] w1].
Qed.

(** On a cache miss, when the search does not raise, [get_businesses] has
    searched once, with the category as it was given, and filtered the
    answer once. *)
Lemma service_cache_miss config location category radius_km min_rating
  api_source cache w :
  Dict.get
    (Service.cache_key api_source location category radius_km min_rating)
    cache = None ->
  match Service.get_businesses config location category radius_km min_rating
          api_source cache w with
  | (Returns businesses, trace, _, _) =>
      exists found,
        trace = [CallSearch category; CallDedupe found]
        /\ businesses = filter_duplicate_businesses found
  | (Raises _, trace, _, _) => trace = [CallSearch category]
  end.
Proof.
  intro Hmiss. unfold Service.get_businesses. rewrite Hmiss.
  destruct (api_search_businesses _ location category radius_km min_rating w)
    as [[businesses | e] w1]; [| reflexivity].
  now exists businesses.
Qed.

End CallerFacts.

(** C4, at the failing input.  A search for the single category
    [restaurant] through the route of [app.py], on a provider answer that
    holds the same business twice: the filter is not called and both records
    are returned.  [get_businesses] on the same request calls the filter
    once and returns one record; given the category [all], it sends one
    search, for the tag [all]. *)
Theorem single_category_route_skips_dedupe :
  (exists businesses w,
     App.search_businesses (H := Demo.net) Demo.config "Rome" "restaurant" 5
       (7 # 2)%Q "osm" 0%nat
     = (Returns businesses, [CallSearch "restaurant"], w)
     /\ dedupe_calls [CallSearch "restaurant"] = 0%nat
     /\ count_identity "da enzo|via dei vascellari" businesses = 2%nat)
  /\ (exists businesses found cache w,
        Service.get_businesses (H := Demo.net) Demo.config "Rome"
          "restaurant" 5 (7 # 2)%Q "osm" [] 0%nat
        = (Returns businesses,
           [CallSearch "restaurant"; CallDedupe found], cache, w)
        /\ count_identity "da enzo|via dei vascellari" businesses = 1%nat)
  /\ (exists businesses found cache w,
        Service.get_businesses (H := Demo.net) Demo.config "Rome" "all" 5
          (7 # 2)%Q "osm" [] 0%nat
        = (Returns businesses, [CallSearch "all"; CallDedupe found], cache,
           w)).
Proof.
  split; [| split].
  - eexists. eexists. split; [vm_compute; reflexivity |].
    split; reflexivity.
  - do 4 eexists. split; [vm_compute; reflexivity | reflexivity].
  - do 4 eexists. vm_compute. reflexivity.
Qed.

(** * Runs on the scripted network *)

Example demo_google_run :
  let (businesses, w) :=
    GooglePlacesAPI.search_businesses (H := Demo.net) "g-key" "Rome"
      "restaurant" 5 (7 # 2)%Q 0%nat in
  map Business_Name businesses = ["unrated"; "good"] /\ w = 5%nat.
Proof. vm_compute. split; reflexivity. Qed.

Example demo_yelp_run :
  exists businesses,
    YelpFusionAPI.search_businesses (H := Demo.net) "y-key" "Rome"
      "restaurant" 5 (7 # 2)%Q 0%nat = (Returns businesses, 3%nat)
    /\ map Business_Name businesses = ["Trattoria"].
Proof. eexists. split; [vm_compute; reflexivity | reflexivity]. Qed.

Example demo_osm_run :
  let (businesses, w) :=
    OpenStreetMapAPI.search_businesses (H := Demo.net) "Rome" "restaurant" 5
      (7 # 2)%Q 0%nat in
  map Business_Name businesses = ["Da Enzo"; "Da Enzo"] /\ w = 2%nat.
Proof. vm_compute. split; reflexivity. Qed.

(** The failures handled by the Google client, on the scripted network:
    the geocode call for the location [offline], the nearby search with
    radius 0, and the details call for the candidate [down]. *)
Lemma transport_failures_handled_demo :
  GooglePlacesAPI.search_businesses (H := Demo.net) "g-key" "offline" "bar" 5
    (7 # 2)%Q 0%nat = ([], 1%nat)
  /\ GooglePlacesAPI.search_businesses (H := Demo.net) "g-key" "Rome" "bar" 0
       (7 # 2)%Q 0%nat = ([], 2%nat)
  /\ GooglePlacesAPI.places_loop (H := Demo.net) "g-key" "bar" (7 # 2)%Q
       [GoogleWire.mkPlace "down" "Down" (Some (9 # 2)%Q);
        GoogleWire.mkPlace "good" "Good" (Some (9 # 2)%Q)]
       (Demo.google_ok Demo.google_places GoogleWire.no_details) [] 2%nat
     = GooglePlacesAPI.places_loop (H := Demo.net) "g-key" "bar" (7 # 2)%Q
         [GoogleWire.mkPlace "good" "Good" (Some (9 # 2)%Q)]
         (Demo.google_ok Demo.google_places GoogleWire.no_details) [] 3%nat.
Proof.
  destruct (transport_failures_handled (H := Demo.net))
    as (Hgeo & Hnear & _ & _ & Hdetails & _).
  split; [| split].
  - apply (Hgeo "g-key" "offline" "bar" 5%Z (7 # 2)%Q 0%nat "timed out").
    reflexivity.
  - apply (Hnear "g-key" "Rome" "bar" 0%Z (7 # 2)%Q 0%nat
             (Demo.google_ok [] GoogleWire.no_details) 1%nat "timed out");
      reflexivity.
  - apply (Hdetails "g-key" "bar" (7 # 2)%Q
             (GoogleWire.mkPlace "down" "Down" (Some (9 # 2)%Q)) _ _ _ 2%nat
             "timed out"); reflexivity.
Defined.

(** C10 on the scripted network: the candidate without a rating is looked
    up and its record is collected, also under the highest threshold. *)
Lemma google_unrated_candidate_demo :
  GooglePlacesAPI.places_loop (H := Demo.net) "g-key" "bar" (5 # 1)%Q
    [GoogleWire.mkPlace "unrated" "Unrated" None]
    (Demo.google_ok Demo.google_places GoogleWire.no_details) [] 2%nat
  = ([GooglePlacesAPI.business_of_details "bar"
        (Demo.google_details "unrated")], 3%nat).
Proof.
  destruct (google_unrated_candidate_not_skipped (H := Demo.net))
    as (_ & _ & _ & Hreach).
  rewrite (Hreach "g-key" "bar" (5 # 1)%Q
             (GoogleWire.mkPlace "unrated" "Unrated" None) [] _ [] 2%nat
             (Demo.google_ok [] (Demo.google_details "unrated")) 3%nat);
    reflexivity.
Defined.

(** * More on the duplicate filter *)

Lemma get_set {V : Type} (k k0 : string) (v : V) (d : Dict.t V) :
  Dict.get k (Dict.set k0 v d) = if k =? k0 then Some v else Dict.get k d.
Proof.
  induction d as [| [k' v'] d IH]; simpl; [reflexivity |].
  destruct (k0 =? k') eqn:E0; simpl.
  - apply String.eqb_eq in E0. subst k'.
    now destruct (k =? k0).
  - rewrite IH. destruct (k =? k0) eqn:E; [| reflexivity].
    apply String.eqb_eq in E. subst k. now rewrite E0.
Qed.

Lemma fold_keys_nodup l : NoDup (Dict.keys (fold_left dedupe_step l [])).
Proof.
  rewrite <- values_keys by (apply fold_well_keyed, well_keyed_nil).
  apply dedupe_keys_nodup.
Qed.

Lemma rebuild_well_keyed (d : Dict.t Business) :
  well_keyed d -> map (fun b => (dedup_key b, b)) (Dict.values d) = d.
Proof.
  intro Hwk. unfold Dict.values. rewrite map_map.
  rewrite <- (map_id d) at 2. apply map_ext_in. intros [k v] Hin. simpl.
  now rewrite (Hwk _ _ Hin).
Qed.

(** Filtering the output again rebuilds the dictionary that produced it. *)
Lemma fold_dedupe l :
  fold_left dedupe_step (filter_duplicate_businesses l) []
  = fold_left dedupe_step l [].
Proof.
  rewrite fold_fresh; [| apply dedupe_keys_nodup | reflexivity].
  simpl. apply rebuild_well_keyed, fold_well_keyed, well_keyed_nil.
Qed.

(** X1. A list is returned unchanged exactly when its records have
    pairwise distinct identities. *)
Theorem dedupe_unchanged_iff_distinct (l : list Business) :
  filter_duplicate_businesses l = l <-> NoDup (map dedup_key l).
Proof.
  split.
  - intro Heq. rewrite <- Heq. apply dedupe_keys_nodup.
  - apply dedupe_distinct.
Qed.

(** X2. Filtering a list whose front part was already filtered gives the
    same result as filtering the whole list at once. *)
Theorem dedupe_absorbs_filtered_prefix (l1 l2 : list Business) :
  filter_duplicate_businesses (filter_duplicate_businesses l1 ++ l2)
  = filter_duplicate_businesses (l1 ++ l2).
Proof.
  unfold filter_duplicate_businesses at 1 3.
  now rewrite !fold_left_app, fold_dedupe.
Qed.

Lemma get_dedupe_step k d b :
  Dict.get k (dedupe_step d b) = survivor_step k (Dict.get k d) b.
Proof.
  unfold dedupe_step, survivor_step.
  destruct (dedup_key b =? k) eqn:E.
  - apply String.eqb_eq in E. subst k.
    destruct (Dict.get (dedup_key b) d) as [existing |] eqn:Hget.
    + destruct (_business_has_more_info b existing); [| exact Hget].
      now rewrite get_set, String.eqb_refl.
    + now rewrite get_set, String.eqb_refl.
  - assert (Hk : (k =? dedup_key b) = false)
      by (rewrite String.eqb_sym; exact E).
    destruct (Dict.get (dedup_key b) d) as [existing |];
      [destruct (_business_has_more_info b existing) |];
      rewrite ?get_set, ?Hk; reflexivity.
Qed.

Lemma get_fold k l : forall d,
  Dict.get k (fold_left dedupe_step l d)
  = fold_left (survivor_step k) l (Dict.get k d).
Proof.
  induction l as [| b l IH]; simpl; intro d; [reflexivity |].
  now rewrite IH, get_dedupe_step.
Qed.

Lemma survivor_of_identity k l : forall o,
  fold_left (survivor_step k) (filter (fun r => dedup_key r =? k) l) o
  = fold_left (survivor_step k) l o.
Proof.
  induction l as [| b l IH]; cbn [filter fold_left]; intro o;
    [reflexivity |].
  destruct (dedup_key b =? k) eqn:E; cbn [fold_left]; [apply IH |].
  assert (Hskip : survivor_step k o b = o)
    by (unfold survivor_step; now rewrite E).
  rewrite Hskip. apply IH.
Qed.

Lemma values_of_identity k (d : Dict.t Business) :
  well_keyed d -> NoDup (Dict.keys d) ->
  filter (fun r => dedup_key r =? k) (Dict.values d)
  = option_list (Dict.get k d).
Proof.
  induction d as [| [k' v'] d IH]; simpl; intros Hwk Hnd; [reflexivity |].
  inversion Hnd as [| ? ? Hnotin Hnd']; subst.
  assert (Hwk' : well_keyed d) by (intros k0 v0 Hin; apply Hwk; now right).
  rewrite (Hwk k' v' (or_introl eq_refl)), (String.eqb_sym k' k).
  destruct (k =? k') eqn:E; [| now apply IH].
  apply String.eqb_eq in E. subst k'. simpl. f_equal.
  rewrite (IH Hwk' Hnd').
  destruct (Dict.get k d) as [v |] eqn:Hget; [exfalso | reflexivity].
  apply Hnotin. apply memb_true_iff.
  destruct (memb k (Dict.keys d)) eqn:Hm; [reflexivity |].
  apply get_none_memb in Hm. congruence.
Qed.

(** X3. The record kept for an identity depends only on the input records
    of that identity: selecting an identity before or after the filter gives
    the same list. *)
Theorem dedupe_identity_is_local (k : string) (l : list Business) :
  filter (fun r => dedup_key r =? k) (filter_duplicate_businesses l)
  = filter_duplicate_businesses (filter (fun r => dedup_key r =? k) l).
Proof.
  assert (Hsel : forall l',
            filter (fun r => dedup_key r =? k)
              (filter_duplicate_businesses l')
            = option_list (fold_left (survivor_step k) l' None)).
  { intro l'. unfold filter_duplicate_businesses.
    rewrite values_of_identity;
      [| apply fold_well_keyed, well_keyed_nil | apply fold_keys_nodup].
    now rewrite get_fold. }
  rewrite Hsel, <- survivor_of_identity, <- Hsel.
  apply forallb_filter_id. apply forallb_forall. intros r Hr.
  apply dedupe_subset, filter_In in Hr. tauto.
Qed.

(** * More on the providers *)

Section ProviderInvariants.
Context `{Network}.

(** The email lookup changes no field but [Email]. *)
Lemma enrich_email_keeps b w :
  let b' := fst (enrich_email b w) in
  Business_Name b' = Business_Name b /\ Category b' = Category b
  /\ Address b' = Address b /\ Website b' = Website b
  /\ Google_Rating b' = Google_Rating b
  /\ Number_of_Reviews b' = Number_of_Reviews b
  /\ API_Source b' = API_Source b.
Proof.
  unfold enrich_email. destruct (Py.str_truthy (Website b));
    [| repeat split].
  destruct (extract_email_from_website (Website b) w) as [[email |] w'];
    [| repeat split].
  destruct (Py.str_truthy email); repeat split.
Qed.

(** The email after the lookup is the one the record had, or a non-empty
    one found for its web site. *)
Lemma enrich_email_source b w :
  Email (fst (enrich_email b w)) = Email b
  \/ exists w0 w1,
       scrape_email (Website b) w0 = (Some (Email (fst (enrich_email b w))), w1).
Proof.
  unfold enrich_email. destruct (Py.str_truthy (Website b)) eqn:Hsite;
    [| now left].
  unfold extract_email_from_website. rewrite Hsite. cbn [negb].
  destruct (scrape_email (Website b) w) as [[email |] w'] eqn:Hscrape;
    [| now left].
  destruct (Py.str_truthy email); [| now left].
  right. exists w, w'. exact Hscrape.
Qed.

Lemma google_visit_cases key category place sr bs w :
  match GooglePlacesAPI.visit_place key category place sr bs w with
  | GooglePlacesAPI.Next _ bs' _ | GooglePlacesAPI.Break bs' _ =>
      bs' = bs
      \/ exists d w1,
           bs' = bs ++ [fst (enrich_email
                               (GooglePlacesAPI.business_of_details category
                                  d) w1)]
  end.
Proof.
  unfold GooglePlacesAPI.visit_place.
  destruct (GooglePlacesAPI._get_place_details key _ w)
    as [details_result w1].
  destruct (GooglePlacesAPI.status_not_ok details_result); [now left |].
  assert (Hmade : forall bd w2,
            enrich_email
              (GooglePlacesAPI.business_of_details category
                 (GoogleWire.result details_result)) w1 = (bd, w2) ->
            exists d w0,
              bs ++ [bd]
              = bs ++ [fst (enrich_email
                              (GooglePlacesAPI.business_of_details category
                                 d) w0)]).
  { intros bd w2 Heq. exists (GoogleWire.result details_result), w1.
    now rewrite Heq. }
  destruct (enrich_email _ w1) as [bd w2].
  specialize (Hmade bd w2 eq_refl).
  destruct (GoogleWire.next_page_token sr) as [token |]; [| now right].
  destruct (GooglePlacesAPI._make_request key _ w2) as [next_result w3].
  destruct (GooglePlacesAPI.status_not_ok next_result); now right.
Qed.

Lemma google_loop_appends key category min_rating places : forall sr bs w,
  exists extra,
    fst (GooglePlacesAPI.places_loop key category min_rating places sr bs w)
    = bs ++ extra
    /\ (length extra
        <= length
             (filter
                (fun p => negb (GooglePlacesAPI.rating_too_low p min_rating))
                places))%nat
    /\ Forall
         (fun b => exists d w1,
            b = fst (enrich_email
                       (GooglePlacesAPI.business_of_details category d) w1))
         extra.
Proof.
  induction places as [| p places IH]; intros sr bs w.
  - exists []. simpl. rewrite app_nil_r. auto.
  - cbn [GooglePlacesAPI.places_loop filter].
    destruct (GooglePlacesAPI.rating_too_low p min_rating); cbn [negb];
      [apply IH |].
    pose proof (google_visit_cases key category p sr bs w) as Hvisit.
    destruct (GooglePlacesAPI.visit_place key category p sr bs w)
      as [sr' bs' w' | bs' w'].
    + destruct (IH sr' bs' w') as (extra & Heq & Hlen & Hall).
      rewrite Heq. destruct Hvisit as [-> | (d & w1 & ->)].
      * exists extra. cbn [length]. auto.
      * exists (fst (enrich_email
                       (GooglePlacesAPI.business_of_details category d) w1)
                :: extra).
        rewrite <- app_assoc. cbn [app length].
        split; [reflexivity | split; [lia |]].
        constructor; [now exists d, w1 | assumption].
    + cbn [fst]. destruct Hvisit as [-> | (d & w1 & ->)].
      * exists []. rewrite app_nil_r. cbn [length]. split; [reflexivity |].
        split; [lia | constructor].
      * exists [fst (enrich_email
                       (GooglePlacesAPI.business_of_details category d) w1)].
        cbn [length]. split; [reflexivity | split; [lia |]].
        constructor; [now exists d, w1 | constructor].
Qed.

Lemma yelp_visit_cases key location category radius c business_id sr bs w :
  match YelpFusionAPI.visit_business key location category radius c
          business_id sr bs w with
  | YelpFusionAPI.Next _ bs' _ | YelpFusionAPI.Break bs' _ =>
      bs' = bs
      \/ exists w1,
           bs' = bs ++ [fst (enrich_email
                               (YelpFusionAPI.business_of_candidate category
                                  c) w1)]
  end.
Proof.
  unfold YelpFusionAPI.visit_business.
  destruct (YelpFusionAPI._make_request key _ w) as [details_result w1].
  destruct (YelpFusionAPI.has_error details_result); [now left |].
  assert (Hmade : forall bd w2,
            enrich_email (YelpFusionAPI.business_of_candidate category c) w1
            = (bd, w2) ->
            exists w0,
              bs ++ [bd]
              = bs ++ [fst (enrich_email
                              (YelpFusionAPI.business_of_candidate category
                                 c) w0)]).
  { intros bd w2 Heq. exists w1. now rewrite Heq. }
  destruct (enrich_email _ w1) as [bd w2].
  specialize (Hmade bd w2 eq_refl).
  destruct (_ && _)%bool; [| now right].
  destruct (YelpFusionAPI._make_request key _ w2) as [next_result w3].
  destruct (YelpFusionAPI.has_error next_result); now right.
Qed.

Lemma yelp_loop_appends key location category radius min_rating candidates :
  forall sr bs w,
  exists extra,
    fst (YelpFusionAPI.businesses_loop key location category radius
           min_rating candidates sr bs w)
    = bs ++ extra
    /\ (length extra <= length candidates)%nat
    /\ Forall
         (fun b => exists c w1,
            In c candidates
            /\ YelpFusionAPI.rating_too_low c min_rating = false
            /\ YelpFusionAPI.usable_id c <> None
            /\ b = fst (enrich_email
                          (YelpFusionAPI.business_of_candidate category c)
                          w1))
         extra.
Proof.
  induction candidates as [| c candidates IH]; intros sr bs w.
  - exists []. simpl. rewrite app_nil_r. auto.
  - assert (Hweaken : forall extra,
              Forall
                (fun b => exists c0 w1,
                   In c0 candidates
                   /\ YelpFusionAPI.rating_too_low c0 min_rating = false
                   /\ YelpFusionAPI.usable_id c0 <> None
                   /\ b = fst (enrich_email
                                 (YelpFusionAPI.business_of_candidate
                                    category c0) w1)) extra ->
              Forall
                (fun b => exists c0 w1,
                   In c0 (c :: candidates)
                   /\ YelpFusionAPI.rating_too_low c0 min_rating = false
                   /\ YelpFusionAPI.usable_id c0 <> None
                   /\ b = fst (enrich_email
                                 (YelpFusionAPI.business_of_candidate
                                    category c0) w1)) extra).
    { intros extra Hall. eapply Forall_impl; [| exact Hall].
      intros b (c0 & w1 & Hin & Hrest). exists c0, w1.
      split; [now right | exact Hrest]. }
    assert (Hskip : forall sr' bs' w',
              exists extra,
                fst (YelpFusionAPI.businesses_loop key location category
                       radius min_rating candidates sr' bs' w')
                = bs' ++ extra
                /\ (length extra <= length (c :: candidates))%nat
                /\ Forall
                     (fun b => exists c0 w1,
                        In c0 (c :: candidates)
                        /\ YelpFusionAPI.rating_too_low c0 min_rating = false
                        /\ YelpFusionAPI.usable_id c0 <> None
                        /\ b = fst (enrich_email
                                      (YelpFusionAPI.business_of_candidate
                                         category c0) w1)) extra).
    { intros sr' bs' w'. destruct (IH sr' bs' w') as (extra & Heq & Hlen & Hall).
      exists extra. cbn [length]. auto. }
    cbn [YelpFusionAPI.businesses_loop].
    destruct (YelpFusionAPI.rating_too_low c min_rating) eqn:Hrating;
      [apply Hskip |].
    destruct (YelpFusionAPI.usable_id c) as [business_id |] eqn:Hid;
      [| apply Hskip].
    pose proof (yelp_visit_cases key location category radius c business_id
                  sr bs w) as Hvisit.
    assert (Hc : forall w1,
              exists c0 w0,
                In c0 (c :: candidates)
                /\ YelpFusionAPI.rating_too_low c0 min_rating = false
                /\ YelpFusionAPI.usable_id c0 <> None
                /\ fst (enrich_email
                          (YelpFusionAPI.business_of_candidate category c) w1)
                   = fst (enrich_email
                            (YelpFusionAPI.business_of_candidate category c0)
                            w0)).
    { intro w1. exists c, w1. split; [now left |].
      split; [assumption | split; [congruence | reflexivity]]. }
    destruct (YelpFusionAPI.visit_business key location category radius c
                business_id sr bs w) as [sr' bs' w' | bs' w'].
    + destruct Hvisit as [-> | (w1 & ->)]; [apply Hskip |].
      destruct (IH sr' (bs ++ [fst (enrich_email
                                      (YelpFusionAPI.business_of_candidate
                                         category c) w1)]) w')
        as (extra & Heq & Hlen & Hall).
      rewrite Heq.
      exists (fst (enrich_email
                     (YelpFusionAPI.business_of_candidate category c) w1)
              :: extra).
      rewrite <- app_assoc. cbn [app length].
      split; [reflexivity | split; [lia |]].
      constructor; [apply Hc | now apply Hweaken].
    + cbn [fst]. destruct Hvisit as [-> | (w1 & ->)].
      * exists []. rewrite app_nil_r. cbn [length]. split; [reflexivity |].
        split; [lia | constructor].
      * exists [fst (enrich_email
                       (YelpFusionAPI.business_of_candidate category c) w1)].
        cbn [length]. split; [reflexivity | split; [lia |]].
        constructor; [apply Hc | constructor].
Qed.

Lemma osm_loop_appends category location_data elements : forall bs w,
  exists extra,
    fst (OpenStreetMapAPI.elements_loop category location_data elements bs w)
    = bs ++ extra
    /\ Forall
         (fun b => exists element tags w1,
            b = fst (OpenStreetMapAPI.enrich_missing_email
                       (OpenStreetMapAPI.business_of_element category
                          location_data element tags) w1))
         extra.
Proof.
  induction elements as [| e elements IH]; intros bs w.
  - exists []. simpl. rewrite app_nil_r. auto.
  - cbn [OpenStreetMapAPI.elements_loop].
    destruct (OpenStreetMapAPI.not_a_node e); [apply IH |].
    destruct (negb _); [apply IH |].
    set (tags := from_option [] (OsmWire.tags e)).
    destruct (OpenStreetMapAPI.enrich_missing_email
                (OpenStreetMapAPI.business_of_element category location_data
                   e tags) w) as [bd w1] eqn:Hbd.
    destruct (IH (bs ++ [bd]) w1) as (extra & Heq & Hall).
    exists (bd :: extra). rewrite Heq, <- app_assoc.
    split; [reflexivity |]. constructor; [| assumption].
    exists e, tags, w. now rewrite Hbd.
Qed.

End ProviderInvariants.

Lemma google_details_fields category d :
  API_Source (GooglePlacesAPI.business_of_details category d)
  = "Google Places API"
  /\ Category (GooglePlacesAPI.business_of_details category d)
     = Str.capitalize category
  /\ Email (GooglePlacesAPI.business_of_details category d) = "".
Proof.
  unfold GooglePlacesAPI.business_of_details.
  destruct (GooglePlacesAPI.scan_components _) as [city country].
  repeat split.
Qed.

(** X4. Every record returned by the Google search names Google Places as
    its source and carries the capitalized category of the request. *)
Theorem google_records_provenance `{Network} key location category radius_km
  min_rating w :
  Forall
    (fun b => API_Source b = "Google Places API"
              /\ Category b = Str.capitalize category)
    (fst (GooglePlacesAPI.search_businesses key location category radius_km
            min_rating w)).
Proof.
  unfold GooglePlacesAPI.search_businesses.
  destruct (GooglePlacesAPI._make_request key _ w) as [geocode_result w1].
  destruct (GooglePlacesAPI.status_not_ok geocode_result); [constructor |].
  destruct (GooglePlacesAPI._make_request key _ w1) as [search_result w2].
  destruct (GooglePlacesAPI.status_not_ok search_result); [constructor |].
  destruct (google_loop_appends key category min_rating
              (GoogleWire.results search_result) search_result [] w2)
    as (extra & Heq & _ & Hall).
  rewrite Heq. cbn [app]. eapply Forall_impl; [| exact Hall].
  intros b (d & w0 & ->).
  destruct (enrich_email_keeps
              (GooglePlacesAPI.business_of_details category d) w0)
    as (_ & Hcat & _ & _ & _ & _ & Hsource).
  destruct (google_details_fields category d) as (Hs & Hc & _).
  rewrite Hsource, Hcat. now split.
Qed.

(** X5. The Google loop only appends to the records collected so far, and
    appends at most one record for each candidate of the list it iterates
    that passes the rating test, whatever later pages the service
    returns. *)
Theorem google_loop_bounded_by_first_page `{Network} key category min_rating
  places sr bs w :
  firstn (length bs)
    (fst (GooglePlacesAPI.places_loop key category min_rating places sr bs w))
  = bs
  /\ (length
        (fst (GooglePlacesAPI.places_loop key category min_rating places sr
                bs w))
      <= length bs
         + length
             (filter
                (fun p => negb (GooglePlacesAPI.rating_too_low p min_rating))
                places))%nat.
Proof.
  destruct (google_loop_appends key category min_rating places sr bs w)
    as (extra & Heq & Hlen & _).
  rewrite Heq. split.
  - rewrite firstn_app, Nat.sub_diag, firstn_all. cbn [firstn].
    apply app_nil_r.
  - rewrite length_app. lia.
Qed.

(** X6. Every record the Yelp loop appends is built from a candidate of the
    list it iterates: one that passes the rating test and has an
    identifier.  The record has the name and the address of that candidate,
    the capitalized category of the request, and Yelp as its source. *)
Theorem yelp_records_come_from_candidates `{Network} key location category
  radius min_rating candidates sr bs w :
  Forall
    (fun b => exists c,
       In c candidates
       /\ YelpFusionAPI.rating_too_low c min_rating = false
       /\ YelpFusionAPI.usable_id c <> None
       /\ Business_Name b = from_option "" (YelpWire.name c)
       /\ Address b
          = String.concat ", "
              (YelpWire.display_address
                 (from_option (YelpWire.mkYLocation [] None None)
                    (YelpWire.location c)))
       /\ Category b = Str.capitalize category
       /\ API_Source b = "Yelp Fusion API")
    (skipn (length bs)
       (fst (YelpFusionAPI.businesses_loop key location category radius
               min_rating candidates sr bs w))).
Proof.
  destruct (yelp_loop_appends key location category radius min_rating
              candidates sr bs w) as (extra & Heq & _ & Hall).
  rewrite Heq, skipn_app, Nat.sub_diag, skipn_all. cbn [skipn app].
  eapply Forall_impl; [| exact Hall].
  intros b (c & w1 & Hin & Hrating & Hid & ->).
  destruct (enrich_email_keeps
              (YelpFusionAPI.business_of_candidate category c) w1)
    as (Hname & Hcat & Haddress & _ & _ & _ & Hsource).
  exists c. rewrite Hname, Hcat, Haddress, Hsource. repeat split; assumption.
Qed.

(** X7. The Yelp loop only appends to the records collected so far, at most
    one record for each candidate of the list it iterates, whatever further
    pages the service returns. *)
Theorem yelp_loop_bounded_by_first_page `{Network} key location category
  radius min_rating candidates sr bs w :
  firstn (length bs)
    (fst (YelpFusionAPI.businesses_loop key location category radius
            min_rating candidates sr bs w))
  = bs
  /\ (length
        (fst (YelpFusionAPI.businesses_loop key location category radius
                min_rating candidates sr bs w))
      <= length bs + length candidates)%nat.
Proof.
  destruct (yelp_loop_appends key location category radius min_rating
              candidates sr bs w) as (extra & Heq & Hlen & _).
  rewrite Heq. split.
  - rewrite firstn_app, Nat.sub_diag, firstn_all. cbn [firstn].
    apply app_nil_r.
  - rewrite length_app. lia.
Qed.

(** X8. Every record returned by the OpenStreetMap search names
    OpenStreetMap as its source, carries the capitalized category of the
    request, and has the empty string as rating and as number of reviews. *)
Theorem osm_records_provenance `{Network} location category radius_km
  min_rating w :
  Forall
    (fun b => API_Source b = "OpenStreetMap API"
              /\ Category b = Str.capitalize category
              /\ Google_Rating b = Py.VStr ""
              /\ Number_of_Reviews b = Py.VStr "")
    (fst (OpenStreetMapAPI.search_businesses location category radius_km
            min_rating w)).
Proof.
  unfold OpenStreetMapAPI.search_businesses.
  destruct (OpenStreetMapAPI._make_request _ w)
    as [[[| place others] | msg] w1]; try constructor.
  destruct (overpass_http _ w1) as [[elements | msg] w2]; [| constructor].
  destruct (osm_loop_appends category place elements [] w2)
    as (extra & Heq & Hall).
  rewrite Heq. cbn [app]. eapply Forall_impl; [| exact Hall].
  intros b (element & tags & w0 & ->).
  unfold OpenStreetMapAPI.enrich_missing_email.
  destruct (_ && _)%bool; [| repeat split].
  destruct (enrich_email_keeps
              (OpenStreetMapAPI.business_of_element category place element
                 tags) w0)
    as (_ & Hcat & _ & _ & Hrating & Hreviews & Hsource).
  rewrite Hcat, Hrating, Hreviews, Hsource. repeat split.
Qed.

(** * Looking for an email address *)

Section DiscoverFacts.
Context `{Network}.
Variable fetch : string -> World -> reply (Z * string) * World.
Variable findall : string -> list string.

Lemma acceptable_excludes email :
  EmailDiscovery.acceptable email = true ->
  forall exclude, In exclude EmailDiscovery.excluded ->
    Text.contains exclude (Py.lower email) = false.
Proof.
  unfold EmailDiscovery.acceptable. rewrite negb_true_iff.
  intros Hnone exclude Hin.
  destruct (Text.contains exclude (Py.lower email)) eqn:E; [| reflexivity].
  assert (Hsome : existsb
                    (fun exclude0 =>
                       Text.contains exclude0 (Py.lower email))
                    EmailDiscovery.excluded = true)
    by (apply existsb_exists; now exists exclude).
  congruence.
Qed.

Lemma first_valid_found answer email :
  EmailDiscovery.first_valid findall answer = Some email ->
  fst answer = 200%Z
  /\ EmailDiscovery.acceptable email = true
  /\ In email (findall (snd answer)).
Proof.
  unfold EmailDiscovery.first_valid.
  destruct (fst answer =? 200)%Z eqn:Hstatus; [| discriminate].
  apply Z.eqb_eq in Hstatus. intro Hhd. split; [assumption |].
  assert (Hin : In email
                  (EmailDiscovery.valid_emails (findall (snd answer)))).
  { destruct (EmailDiscovery.valid_emails (findall (snd answer)))
      as [| x xs]; [discriminate |].
    injection Hhd as ->. now left. }
  apply filter_In in Hin. tauto.
Qed.

Lemma discover_found website_url w email :
  fst (EmailDiscovery.discover fetch findall website_url w) = Some email ->
  EmailDiscovery.acceptable email = true
  /\ exists url w0 text w1,
       fetch url w0 = (Ok (200%Z, text), w1)
       /\ In email (findall text)
       /\ (url = website_url
           \/ url = (Text.rstrip_slash website_url ++ "/contact")%string
              /\ Text.contains "/contact" (Py.lower website_url) = false).
Proof.
  unfold EmailDiscovery.discover.
  destruct (fetch website_url w) as [[[status text] | msg] w1] eqn:Hfetch;
    [| discriminate].
  destruct (EmailDiscovery.first_valid findall (status, text))
    as [found |] eqn:Hfirst.
  - cbn [fst]. intros [= ->].
    destruct (first_valid_found _ _ Hfirst) as (Hs & Hok & Hin).
    cbn [fst snd] in Hs, Hin. subst status.
    split; [assumption |]. exists website_url, w, text, w1. auto.
  - destruct (Text.contains "/contact" (Py.lower website_url)) eqn:Hcontact;
      cbn [negb]; [discriminate |].
    destruct (fetch (Text.rstrip_slash website_url ++ "/contact")%string w1)
      as [[[status2 text2] | msg2] w2] eqn:Hfetch2; [| discriminate].
    cbn [fst]. intro Hfound.
    destruct (first_valid_found _ _ Hfound) as (Hs & Hok & Hin).
    cbn [fst snd] in Hs, Hin. subst status2.
    split; [assumption |].
    exists (Text.rstrip_slash website_url ++ "/contact")%string, w1, text2,
      w2.
    auto.
Qed.

End DiscoverFacts.

(** X9. An address returned by the email lookup is a match on a page that
    was fetched with status 200, the site itself or its [/contact] page (the
    latter only for a URL without [/contact] in it), and its lower-cased
    form contains none of the excluded fragments. *)
Theorem discovered_email_is_acceptable `{Network}
  (fetch : string -> World -> reply (Z * string) * World)
  (findall : string -> list string) website_url w email :
  fst (EmailDiscovery.discover fetch findall website_url w) = Some email ->
  (forall exclude, In exclude EmailDiscovery.excluded ->
     Text.contains exclude (Py.lower email) = false)
  /\ exists url w0 text w1,
       fetch url w0 = (Ok (200%Z, text), w1)
       /\ In email (findall text)
       /\ (url = website_url
           \/ url = (Text.rstrip_slash website_url ++ "/contact")%string
              /\ Text.contains "/contact" (Py.lower website_url) = false).
Proof.
  intro Hfound.
  destruct (discover_found fetch findall _ _ _ Hfound) as [Hok Hpage].
  split; [now apply acceptable_excludes | exact Hpage].
Qed.

Lemma discovered_email_is_acceptable_demo :
  fst (EmailDiscovery.discover (H := Demo2.net) Demo2.fetch Demo2.findall
         "https://daenzo.example.org" 0%nat) = Some "Ciao@DaEnzo.it"
  /\ Text.contains "example.com" (Py.lower "Ciao@DaEnzo.it") = false.
Proof.
  split; [reflexivity |].
  apply (discovered_email_is_acceptable (H := Demo2.net) Demo2.fetch
           Demo2.findall "https://daenzo.example.org" 0%nat "Ciao@DaEnzo.it");
    [reflexivity | now left].
Defined.

(** X10. When the email lookup of the providers is the one of
    [extract_email_from_website], every record returned by the Google search
    has an empty email or one whose lower-cased form contains none of the
    excluded fragments. *)
Theorem google_emails_are_acceptable `{Network}
  (fetch : string -> World -> reply (Z * string) * World)
  (findall : string -> list string)
  key location category radius_km min_rating w :
  (forall url w0,
     scrape_email url w0 = EmailDiscovery.discover fetch findall url w0) ->
  Forall
    (fun b => Email b = ""
              \/ forall exclude, In exclude EmailDiscovery.excluded ->
                   Text.contains exclude (Py.lower (Email b)) = false)
    (fst (GooglePlacesAPI.search_businesses key location category radius_km
            min_rating w)).
Proof.
  intro Hscrape. unfold GooglePlacesAPI.search_businesses.
  destruct (GooglePlacesAPI._make_request key _ w) as [geocode_result w1].
  destruct (GooglePlacesAPI.status_not_ok geocode_result); [constructor |].
  destruct (GooglePlacesAPI._make_request key _ w1) as [search_result w2].
  destruct (GooglePlacesAPI.status_not_ok search_result); [constructor |].
  destruct (google_loop_appends key category min_rating
              (GoogleWire.results search_result) search_result [] w2)
    as (extra & Heq & _ & Hall).
  rewrite Heq. cbn [app]. eapply Forall_impl; [| exact Hall].
  intros b (d & w0 & ->).
  destruct (enrich_email_source
              (GooglePlacesAPI.business_of_details category d) w0)
    as [Hsame | (wa & wb & Hfound)].
  - left. rewrite Hsame. apply google_details_fields.
  - right. rewrite Hscrape in Hfound.
    apply (acceptable_excludes).
    apply (discover_found fetch findall
             (Website (GooglePlacesAPI.business_of_details category d)) wa).
    now rewrite Hfound.
Qed.

Lemma google_emails_are_acceptable_demo :
  map Email
    (fst (GooglePlacesAPI.search_businesses (H := Demo2.net) "g-key" "Rome"
            "restaurant" 5 (7 # 2)%Q 0%nat))
  = ["Ciao@DaEnzo.it"; "Ciao@DaEnzo.it"; "Ciao@DaEnzo.it"]
  /\ Forall
       (fun b => Email b = ""
                 \/ forall exclude, In exclude EmailDiscovery.excluded ->
                      Text.contains exclude (Py.lower (Email b)) = false)
       (fst (GooglePlacesAPI.search_businesses (H := Demo2.net) "g-key"
               "Rome" "restaurant" 5 (7 # 2)%Q 0%nat)).
Proof.
  split; [reflexivity |].
  apply (google_emails_are_acceptable (H := Demo2.net) Demo2.fetch
           Demo2.findall).
  reflexivity.
Defined.

(** * Pagination *)

Lemma firstn_add {A : Type} (a b : nat) : forall l : list A,
  firstn (a + b) l = firstn a l ++ firstn b (skipn a l).
Proof.
  induction a as [| a IH]; intro l; [reflexivity |].
  destruct l as [| x l]; simpl.
  - now rewrite firstn_nil.
  - now rewrite IH.
Qed.

Lemma chunks_cover {A : Type} (l : list A) (size n : nat) :
  flat_map (fun i => firstn size (skipn (i * size) l)) (seq 0 n)
  = firstn (n * size) l.
Proof.
  induction n as [| n IH]; [reflexivity |].
  rewrite seq_S, flat_map_app, IH. cbn [flat_map plus].
  rewrite app_nil_r, <- firstn_add. f_equal. lia.
Qed.

Lemma ceil_div_bounds (n size : Z) :
  (1 <= size)%Z ->
  ((((n + size - 1) / size) - 1) * size < n
   /\ n <= ((n + size - 1) / size) * size)%Z.
Proof.
  intro Hsize.
  pose proof (Z.div_mod (n + size - 1) size ltac:(lia)) as Hdm.
  pose proof (Z.mod_pos_bound (n + size - 1) size ltac:(lia)) as Hmod.
  nia.
Qed.

(** The slice of a page numbered from one, with a positive page size. *)
Lemma page_slice {A : Type} (l : list A) (page page_size : Z) :
  (1 <= page)%Z -> (1 <= page_size)%Z ->
  Routes.py_slice l ((page - 1) * page_size)
    ((page - 1) * page_size + page_size)
  = firstn (Z.to_nat page_size)
      (skipn (Z.to_nat ((page - 1) * page_size)) l).
Proof.
  intros Hpage Hsize. unfold Routes.py_slice, Routes.slice_index.
  set (len := Z.of_nat (length l)).
  set (start := ((page - 1) * page_size)%Z).
  assert (Hstart : (0 <= start)%Z) by (unfold start; nia).
  destruct (start <? 0)%Z eqn:E1; [apply Z.ltb_lt in E1; lia |].
  destruct (start + page_size <? 0)%Z eqn:E2; [apply Z.ltb_lt in E2; lia |].
  destruct (Z_le_gt_dec len start) as [Hpast | Hin].
  - rewrite (Z.min_r start len) by lia.
    rewrite !skipn_all2 by (unfold len in *; lia).
    now rewrite !firstn_nil.
  - rewrite (Z.min_l start len) by lia.
    destruct (Z_le_gt_dec (start + page_size) len) as [Hfull | Hshort].
    + rewrite (Z.min_l (start + page_size) len) by lia.
      f_equal. lia.
    + rewrite (Z.min_r (start + page_size) len) by lia.
      rewrite !firstn_all2;
        [reflexivity | |]; rewrite length_skipn; unfold len in *; lia.
Qed.

(** X11. With a page size of at least one, the route cuts the list into
    [totalPages] pages, [totalPages] being the least number of pages of that
    size that hold the list: each page numbered from one has at most
    [page_size] records, and the pages 1 to [totalPages] put one after the
    other give the list back. *)
Theorem pages_partition_the_results (businesses : list Business)
  (page_size : Z) :
  (1 <= page_size)%Z ->
  let n := Z.of_nat (length businesses) in
  let total_pages := ((n + page_size - 1) / page_size)%Z in
  (forall page,
     exists paginated,
       Routes.paginate businesses page page_size
       = Routes.Success
           (Routes.mkPage paginated n page page_size total_pages))
  /\ ((total_pages - 1) * page_size < n <= total_pages * page_size)%Z
  /\ (forall page, (1 <= page)%Z ->
        (Z.of_nat
           (length (page_results
                      (Routes.paginate businesses page page_size)))
         <= page_size)%Z)
  /\ flat_map
       (fun i =>
          page_results
            (Routes.paginate businesses (Z.of_nat i + 1) page_size))
       (seq 0 (Z.to_nat total_pages))
     = businesses.
Proof.
  intros Hsize n total_pages.
  assert (Hne : (page_size =? 0)%Z = false) by (apply Z.eqb_neq; lia).
  assert (Hpage : forall page, (1 <= page)%Z ->
            page_results (Routes.paginate businesses page page_size)
            = firstn (Z.to_nat page_size)
                (skipn (Z.to_nat ((page - 1) * page_size)) businesses)).
  { intros page Hp. unfold Routes.paginate. rewrite Hne. cbn.
    now apply page_slice. }
  pose proof (ceil_div_bounds n page_size Hsize) as Hbounds.
  fold total_pages in Hbounds.
  split; [| split; [exact Hbounds | split]].
  - intro page. unfold Routes.paginate. rewrite Hne. eexists. reflexivity.
  - intros page Hp. rewrite (Hpage page Hp).
    rewrite length_firstn. lia.
  - rewrite (flat_map_ext _
               (fun i => firstn (Z.to_nat page_size)
                           (skipn (i * Z.to_nat page_size) businesses))).
    + rewrite chunks_cover. apply firstn_all2. unfold n in *. nia.
    + intro i. rewrite Hpage by lia. do 2 f_equal. nia.
Qed.

Lemma pages_partition_the_results_demo :
  flat_map
    (fun i =>
       page_results
         (Routes.paginate
            [Demo.with_email; Demo.with_phone; Demo.from_google]
            (Z.of_nat i + 1) 2))
    (seq 0 2)
  = [Demo.with_email; Demo.with_phone; Demo.from_google].
Proof.
  apply (pages_partition_the_results
           [Demo.with_email; Demo.with_phone; Demo.from_google] 2).
  lia.
Defined.

(** X12. With a page size of at least one, page 0 and every page after the
    last one are empty. *)
Theorem pages_outside_the_range_are_empty (businesses : list Business)
  (page page_size : Z) :
  (1 <= page_size)%Z ->
  (page = 0
   \/ (Z.of_nat (length businesses) + page_size - 1) / page_size < page)%Z ->
  page_results (Routes.paginate businesses page page_size) = [].
Proof.
  intros Hsize Hout. unfold Routes.paginate.
  assert (Hne : (page_size =? 0)%Z = false) by (apply Z.eqb_neq; lia).
  rewrite Hne. cbn [page_results Routes.results].
  pose proof (ceil_div_bounds (Z.of_nat (length businesses)) page_size Hsize)
    as Hbounds.
  destruct Hout as [-> | Hpast].
  - unfold Routes.py_slice, Routes.slice_index.
    replace ((0 - 1) * page_size + page_size)%Z with 0%Z by lia.
    destruct ((0 - 1) * page_size <? 0)%Z eqn:E; [| apply Z.ltb_ge in E; lia].
    cbn [Z.ltb Z.compare].
    replace (Z.to_nat _) with 0%nat by lia. reflexivity.
  - assert (Hpages : (0 <= (Z.of_nat (length businesses) + page_size - 1)
                             / page_size)%Z) by (apply Z.div_pos; lia).
    assert (Hp : (1 <= page)%Z) by lia.
    rewrite page_slice by assumption.
    rewrite skipn_all2; [apply firstn_nil | nia].
Qed.

Lemma pages_outside_the_range_are_empty_demo :
  page_results
    (Routes.paginate [Demo.with_email; Demo.with_phone; Demo.from_google]
       0 2) = []
  /\ page_results
       (Routes.paginate [Demo.with_email; Demo.with_phone; Demo.from_google]
          3 2) = [].
Proof.
  split;
    apply (pages_outside_the_range_are_empty
             [Demo.with_email; Demo.with_phone; Demo.from_google]);
    try lia.
  right. vm_compute. reflexivity.
Defined.

(** X13. A negative page number is not refused: with a page size of at
    least one it selects [page_size] records counted from the end of the
    list, the page [-1] being the records just before the last
    [page_size] ones, as long as the list is long enough. *)
Theorem negative_pages_count_from_the_end (businesses : list Business)
  (page page_size : Z) :
  (1 <= page_size)%Z -> (page <= -1)%Z ->
  ((1 - page) * page_size <= Z.of_nat (length businesses))%Z ->
  page_results (Routes.paginate businesses page page_size)
  = firstn (Z.to_nat page_size)
      (skipn
         (Z.to_nat
            (Z.of_nat (length businesses) - (1 - page) * page_size))
         businesses)
  /\ Z.of_nat
       (length (page_results (Routes.paginate businesses page page_size)))
     = page_size.
Proof.
  intros Hsize Hpage Hlong.
  assert (Hne : (page_size =? 0)%Z = false) by (apply Z.eqb_neq; lia).
  assert (Heq : page_results (Routes.paginate businesses page page_size)
                = firstn (Z.to_nat page_size)
                    (skipn
                       (Z.to_nat
                          (Z.of_nat (length businesses)
                           - (1 - page) * page_size)) businesses)).
  { unfold Routes.paginate. rewrite Hne. cbn [page_results Routes.results].
    unfold Routes.py_slice, Routes.slice_index.
    set (len := Z.of_nat (length businesses)) in *.
    destruct ((page - 1) * page_size <? 0)%Z eqn:E1;
      [| apply Z.ltb_ge in E1; nia].
    destruct ((page - 1) * page_size + page_size <? 0)%Z eqn:E2;
      [| apply Z.ltb_ge in E2; nia].
    rewrite !Z.max_l by nia. f_equal; [lia |]. f_equal. lia. }
  split; [exact Heq |].
  rewrite Heq, length_firstn, length_skipn. lia.
Qed.

Lemma negative_pages_count_from_the_end_demo :
  page_results
    (Routes.paginate
       [Demo.with_email; Demo.with_phone; Demo.from_google; Demo.from_osm]
       (-1) 2)
  = [Demo.with_email; Demo.with_phone].
Proof.
  apply (negative_pages_count_from_the_end
           [Demo.with_email; Demo.with_phone; Demo.from_google;
            Demo.from_osm] (-1) 2); simpl; lia.
Defined.

(** X14. [create_pagination_metadata] fails only on a page size of zero
    with a positive number of items.  Otherwise it reports one page for a
    number of items that is not positive and, for a positive number of items
    and a page size of at least one, the least number of pages that hold
    them; [hasNextPage] says that the page is before the last one and
    [hasPrevPage] that it is after the first. *)
Theorem pagination_metadata (total_items page page_size : Z) :
  (ApiUtils.create_pagination_metadata total_items page page_size = None
   <-> (0 < total_items)%Z /\ page_size = 0%Z)
  /\ forall m,
       ApiUtils.create_pagination_metadata total_items page page_size
       = Some m ->
       ApiUtils.totalItems m = total_items
       /\ ApiUtils.hasNextPage m = (page <? ApiUtils.totalPages m)%Z
       /\ ApiUtils.hasPrevPage m = (1 <? page)%Z
       /\ ((total_items <= 0)%Z -> ApiUtils.totalPages m = 1%Z)
       /\ ((0 < total_items)%Z -> (1 <= page_size)%Z ->
           (1 <= ApiUtils.totalPages m
            /\ (ApiUtils.totalPages m - 1) * page_size < total_items
               <= ApiUtils.totalPages m * page_size)%Z).
Proof.
  unfold ApiUtils.create_pagination_metadata.
  destruct (0 <? total_items)%Z eqn:Hpos.
  - apply Z.ltb_lt in Hpos.
    destruct (page_size =? 0)%Z eqn:Hzero.
    + apply Z.eqb_eq in Hzero. split; [tauto | discriminate].
    + apply Z.eqb_neq in Hzero. split.
      * split; [discriminate | tauto].
      * intros m [= <-]. cbn.
        repeat split; try lia;
          pose proof (ceil_div_bounds total_items page_size ltac:(lia));
          nia.
  - apply Z.ltb_ge in Hpos. split.
    + split; [discriminate | lia].
    + intros m [= <-]. cbn. repeat split; lia.
Qed.

(** * Validation of the search parameters *)

Lemma set_not_nil {V : Type} (k : string) (v : V) (d : Dict.t V) :
  Dict.set k v d <> [].
Proof.
  destruct d as [| [k' v'] d]; simpl; [discriminate |].
  destruct (k =? k'); discriminate.
Qed.

Lemma rating_in_range (f : Validation.Float) :
  Validation.float_lt f (Validation.Finite 1)
  || Validation.float_lt (Validation.Finite 5) f = false
  <-> f = Validation.NaN
      \/ exists q, f = Validation.Finite q /\ (1 <= q)%Q /\ (q <= 5)%Q.
Proof.
  destruct f as [q | | negative].
  - cbn [Validation.float_lt]. rewrite orb_false_iff. split.
    + intros [Hlow Hhigh]. right. exists q. split; [reflexivity |].
      split; apply Qnot_lt_le; intro Hlt; apply ltb_lt in Hlt; congruence.
    + intros [[=] | (q' & [= <-] & Hl & Hh)].
      split.
      * destruct (Py.ltb q 1) eqn:E; [| reflexivity].
        apply ltb_lt in E. exfalso. exact (Qlt_not_le _ _ E Hl).
      * destruct (Py.ltb 5 q) eqn:E; [| reflexivity].
        apply ltb_lt in E. exfalso. exact (Qlt_not_le _ _ E Hh).
  - split; [now left | reflexivity].
  - destruct negative; cbn; split; try discriminate;
      intros [[=] | (q & [=] & _)].
Qed.

(** X15. [validate_search_params] returns [(True, {})] exactly when the
    location is truthy; the category is falsy, one of the six categories or
    [all]; the radius, 5 when absent, converts to an integer from 1 to 50;
    the minimum rating, 3.5 when absent, converts to a float that is
    not-a-number or lies between 1 and 5; and the source, [osm] when absent,
    is [google], [yelp] or [osm].  Whenever it returns, [is_valid] is [True]
    exactly when it reports no error.  It raises [OverflowError] exactly
    when the conversion of the radius or of the minimum rating overflows,
    which for the radius is the case of an infinite float. *)
Theorem validation_accepts_iff (parse_int : string -> option Z)
  (parse_float : string -> option Validation.Float)
  (float_of_big_int : Z -> option Validation.Float)
  (params : Dict.t Validation.Param) :
  let validate :=
    Validation.validate_search_params parse_int parse_float float_of_big_int
      params in
  let category :=
    from_option Validation.PNone (Dict.get "category" params) in
  let radius :=
    Validation.to_int parse_int
      (from_option (Validation.PInt 5) (Dict.get "radius_km" params)) in
  let min_rating :=
    Validation.to_float parse_float float_of_big_int
      (from_option (Validation.PFloat (Validation.Finite (7 # 2)%Q))
         (Dict.get "min_rating" params)) in
  (validate = Validation.Result true []
   <-> Validation.truthy
         (from_option Validation.PNone (Dict.get "location" params)) = true
       /\ (Validation.truthy category = false
           \/ Validation.value_in category Validation.valid_categories = true
           \/ category = Validation.PStr "all")
       /\ (exists r,
             radius = Validation.Converted r /\ (1 <= r <= 50)%Z)
       /\ (exists f,
             min_rating = Validation.Converted f
             /\ (f = Validation.NaN
                 \/ exists q,
                      f = Validation.Finite q /\ (1 <= q)%Q /\ (q <= 5)%Q))
       /\ Validation.value_in
            (from_option (Validation.PStr "osm")
               (Dict.get "api_source" params))
            Validation.valid_sources = true)
  /\ (forall is_valid errors,
        validate = Validation.Result is_valid errors ->
        (is_valid = true <-> errors = []))
  /\ (validate = Validation.OverflowError
      <-> radius = Validation.Overflow \/ min_rating = Validation.Overflow)
  /\ (radius = Validation.Overflow
      <-> exists negative,
            from_option (Validation.PInt 5) (Dict.get "radius_km" params)
            = Validation.PFloat (Validation.Infinity negative)).
Proof.
  intros validate category radius min_rating.
  assert (Hloc : forall errors,
            Validation.check_location params errors = []
            <-> errors = []
                /\ Validation.truthy
                     (from_option Validation.PNone
                        (Dict.get "location" params)) = true).
  { intro errors. unfold Validation.check_location.
    destruct (Validation.truthy _); cbn [negb].
    - tauto.
    - split; [intro Hs; now apply set_not_nil in Hs | intros [_ [=]]]. }
  assert (Hcat : forall errors,
            Validation.check_category params errors = []
            <-> errors = []
                /\ (Validation.truthy category = false
                    \/ Validation.value_in category
                         Validation.valid_categories = true
                    \/ category = Validation.PStr "all")).
  { intro errors. unfold Validation.check_category. fold category.
    destruct (Validation.truthy category); cbn [andb]; [| tauto].
    destruct (Validation.value_in category Validation.valid_categories);
      cbn [negb andb]; [tauto |].
    destruct (Validation.differs_from category "all") eqn:Hall.
    - split; [intro Hs; now apply set_not_nil in Hs |].
      intros [_ [[=] | [[=] | Heq]]]. rewrite Heq in Hall. discriminate.
    - split; [| tauto]. intro Herr. split; [assumption |].
      right. right. unfold Validation.differs_from in Hall.
      destruct category as [| s | n | f]; try discriminate.
      apply negb_false_iff, String.eqb_eq in Hall. now subst s. }
  assert (Hrad : forall errors,
            Validation.check_radius parse_int params errors = Some []
            <-> errors = []
                /\ exists r,
                     radius = Validation.Converted r /\ (1 <= r <= 50)%Z).
  { intro errors. unfold Validation.check_radius. fold radius.
    destruct radius as [r | |].
    - destruct ((r <=? 0) || (50 <? r))%Z eqn:Hout.
      + split; [intros [= Hs]; now apply set_not_nil in Hs |].
        intros [_ (r' & [= <-] & Hr)].
        apply orb_true_iff in Hout.
        destruct Hout as [Hl | Hh];
          [apply Z.leb_le in Hl | apply Z.ltb_lt in Hh]; lia.
      + apply orb_false_iff in Hout. destruct Hout as [Hl Hh].
        apply Z.leb_gt in Hl. apply Z.ltb_ge in Hh.
        split.
        * intros [= ->]. split; [reflexivity |].
          exists r. split; [reflexivity | lia].
        * intros [-> _]. reflexivity.
    - split; [intros [= Hs]; now apply set_not_nil in Hs |].
      intros [_ (r & [=] & _)].
    - split; [discriminate | intros [_ (r & [=] & _)]]. }
  assert (Hrat : forall errors,
            Validation.check_min_rating parse_float float_of_big_int params
              errors = Some []
            <-> errors = []
                /\ exists f,
                     min_rating = Validation.Converted f
                     /\ (f = Validation.NaN
                         \/ exists q,
                              f = Validation.Finite q
                              /\ (1 <= q)%Q /\ (q <= 5)%Q)).
  { intro errors. unfold Validation.check_min_rating. fold min_rating.
    destruct min_rating as [f | |].
    - pose proof (rating_in_range f) as Hrange.
      destruct (Validation.float_lt f (Validation.Finite 1)
                || Validation.float_lt (Validation.Finite 5) f).
      + split; [intros [= Hs]; now apply set_not_nil in Hs |].
        intros [_ (f' & [= <-] & Hin)]. apply Hrange in Hin. discriminate.
      + split.
        * intros [= ->]. split; [reflexivity |].
          exists f. split; [reflexivity | now apply Hrange].
        * intros [-> _]. reflexivity.
    - split; [intros [= Hs]; now apply set_not_nil in Hs |].
      intros [_ (f & [=] & _)].
    - split; [discriminate | intros [_ (f & [=] & _)]]. }
  assert (Hsrc : forall errors,
            Validation.check_api_source params errors = []
            <-> errors = []
                /\ Validation.value_in
                     (from_option (Validation.PStr "osm")
                        (Dict.get "api_source" params))
                     Validation.valid_sources = true).
  { intro errors. unfold Validation.check_api_source.
    destruct (Validation.value_in _ Validation.valid_sources); cbn [negb].
    - tauto.
    - split; [intro Hs; now apply set_not_nil in Hs | intros [_ [=]]]. }
  assert (Hradius_some : forall errors,
            Validation.check_radius parse_int params errors = None
            <-> radius = Validation.Overflow).
  { intro errors. unfold Validation.check_radius. fold radius.
    destruct radius as [r | |];
      [destruct ((r <=? 0) || (50 <? r))%Z | |];
      split; congruence. }
  assert (Hrating_some : forall errors,
            Validation.check_min_rating parse_float float_of_big_int params
              errors = None
            <-> min_rating = Validation.Overflow).
  { intro errors. unfold Validation.check_min_rating. fold min_rating.
    destruct min_rating as [f | |];
      [destruct (Validation.float_lt f (Validation.Finite 1)
                 || Validation.float_lt (Validation.Finite 5) f) | |];
      split; congruence. }
  unfold validate, Validation.validate_search_params.
  split; [| split; [| split]].
  - destruct (Validation.check_radius parse_int params _)
      as [errors1 |] eqn:Hr.
    + destruct (Validation.check_min_rating parse_float float_of_big_int
                  params errors1) as [errors2 |] eqn:Hm.
      * split.
        -- intros [= _ Hnil]. apply Hsrc in Hnil. destruct Hnil as [-> Hs].
           apply Hrat in Hm. destruct Hm as [-> Hm].
           apply Hrad in Hr. destruct Hr as [Hr Hrange].
           apply Hcat in Hr. destruct Hr as [Hr Hc].
           apply Hloc in Hr. tauto.
        -- intros (Hl & Hc & Hrange & Hm' & Hs).
           assert (H1 : Validation.check_category params
                          (Validation.check_location params []) = [])
             by (apply Hcat; split; [apply Hloc |]; tauto).
           rewrite H1 in Hr.
           assert (H2 : Validation.check_radius parse_int params []
                        = Some []) by (apply Hrad; tauto).
           rewrite H2 in Hr. injection Hr as <-.
           assert (H3 : Validation.check_min_rating parse_float
                          float_of_big_int params [] = Some [])
             by (apply Hrat; tauto).
           rewrite H3 in Hm. injection Hm as <-.
           assert (H4 : Validation.check_api_source params [] = [])
             by (apply Hsrc; tauto).
           now rewrite H4.
      * apply Hrating_some in Hm. split; [discriminate |].
        intros (_ & _ & _ & (f & Hf & _) & _). congruence.
    + apply Hradius_some in Hr. split; [discriminate |].
      intros (_ & _ & (r & Hr' & _) & _). congruence.
  - intros is_valid errors.
    destruct (Validation.check_radius parse_int params _) as [errors1 |];
      [| discriminate].
    destruct (Validation.check_min_rating parse_float float_of_big_int
                params errors1) as [errors2 |]; [| discriminate].
    intros [= <- <-]. rewrite Nat.eqb_eq. apply length_zero_iff_nil.
  - destruct (Validation.check_radius parse_int params _)
      as [errors1 |] eqn:Hr.
    + assert (Hnot : radius <> Validation.Overflow).
      { intro Hover. apply (Hradius_some
                              (Validation.check_category params
                                 (Validation.check_location params [])))
          in Hover. congruence. }
      destruct (Validation.check_min_rating parse_float float_of_big_int
                  params errors1) as [errors2 |] eqn:Hm.
      * split; [discriminate |]. intros [Hover | Hover]; [contradiction |].
        apply (Hrating_some errors1) in Hover. congruence.
      * apply Hrating_some in Hm. tauto.
    + apply Hradius_some in Hr. tauto.
  - unfold radius, Validation.to_int.
    destruct (from_option (Validation.PInt 5) (Dict.get "radius_km" params))
      as [| s | n | [q | | negative]]; try (destruct (parse_int s));
      split; intro Hx; try discriminate Hx;
      try (now destruct Hx); try reflexivity.
    now exists negative.
Qed.

(** A minimum rating that reads [nan] is accepted, and a radius that is an
    infinite float makes the function raise. *)
Example validation_edge_cases :
  Validation.validate_search_params Validation.demo_parse_int
    Validation.demo_parse_float (fun _ => None)
    [("location", Validation.PStr "Rome");
     ("min_rating", Validation.PStr "nan")]
  = Validation.Result true []
  /\ Validation.validate_search_params Validation.demo_parse_int
       Validation.demo_parse_float (fun _ => None)
       [("location", Validation.PStr "Rome");
        ("radius_km", Validation.PFloat (Validation.Infinity false))]
     = Validation.OverflowError
  /\ Validation.validate_search_params Validation.demo_parse_int
       Validation.demo_parse_float (fun _ => None)
       [("radius_km", Validation.PStr "60");
        ("min_rating", Validation.PStr "inf")]
     = Validation.Result false
         [("location", "Location is required");
          ("radius", "Radius must be between 1 and 50 km");
          ("min_rating", "Minimum rating must be between 1 and 5")].
Proof. repeat split. Qed.

(** * Choosing the provider *)

(** X16. A paid client is built only when its source is requested and its
    key is configured and not empty; every other request is served by the
    OpenStreetMap client. *)
Theorem paid_provider_needs_a_key (config : Config) (api_source : string) :
  (forall key,
     select_api config api_source = UseGoogle key
     <-> api_source = "google" /\ GOOGLE_API_KEY config = Some key
         /\ key <> "")
  /\ (forall key,
        select_api config api_source = UseYelp key
        <-> api_source = "yelp" /\ YELP_API_KEY config = Some key
            /\ key <> "")
  /\ (select_api config api_source = UseOpenStreetMap
      <-> ~ (api_source = "google"
             /\ exists key, GOOGLE_API_KEY config = Some key /\ key <> "")
          /\ ~ (api_source = "yelp"
                /\ exists key, YELP_API_KEY config = Some key /\ key <> "")).
Proof.
  unfold select_api, key_present, Py.str_truthy.
  destruct (api_source =? "google") eqn:Hg;
    [apply String.eqb_eq in Hg | apply String.eqb_neq in Hg];
    (destruct (api_source =? "yelp") eqn:Hy;
     [apply String.eqb_eq in Hy | apply String.eqb_neq in Hy]);
    try (subst api_source; discriminate);
    destruct (GOOGLE_API_KEY config) as [gk |];
    destruct (YELP_API_KEY config) as [yk |];
    try (destruct (gk =? "") eqn:Hgk;
         [apply String.eqb_eq in Hgk | apply String.eqb_neq in Hgk]);
    try (destruct (yk =? "") eqn:Hyk;
         [apply String.eqb_eq in Hyk | apply String.eqb_neq in Hyk]);
    cbn [andb negb from_option];
    (split; [| split]);
    try (intro key; split;
         [intro Heq; try discriminate Heq; injection Heq as <-; auto
         | intros (Hs & Hk & Hne); try congruence;
           injection Hk as ->; try congruence; reflexivity]);
    try (split;
         [intro Heq; try discriminate Heq;
          split; intros (Hs & key & Hk & Hne); congruence
         | intros [Hno1 Hno2]; try reflexivity; exfalso;
           first [apply Hno1; split; [assumption | eexists; eauto]
                 | apply Hno2; split; [assumption | eexists; eauto]]]).
Qed.

(** * The cache of [get_businesses] *)

(** X17. Once [get_businesses] has returned a list for a request, the same
    request is answered from the cache: it returns the same list, calls
    neither a provider nor the filter, and leaves the cache and the world as
    they are. *)
Theorem repeated_request_is_served_from_cache `{Network} config location
  category radius_km min_rating api_source cache w businesses trace cache'
  w' :
  Service.get_businesses config location category radius_km min_rating
    api_source cache w = (Returns businesses, trace, cache', w') ->
  forall w2,
    Service.get_businesses config location category radius_km min_rating
      api_source cache' w2 = (Returns businesses, [], cache', w2).
Proof.
  unfold Service.get_businesses.
  destruct (Dict.get _ cache) as [cached |] eqn:Hget.
  - intros [= <- _ <- _] w2. now rewrite Hget.
  - destruct (api_search_businesses _ location category radius_km
                min_rating w) as [[found | e] w1]; [| discriminate].
    intros [= <- _ <- _] w2.
    now rewrite get_set, String.eqb_refl.
Qed.

Lemma repeated_request_is_served_from_cache_demo :
  match
    Service.get_businesses (H := Demo.net) Demo.config "Rome" "restaurant" 5
      (7 # 2)%Q "osm" [] 0%nat
  with
  | (Returns businesses, _, cache', w') =>
      Service.get_businesses (H := Demo.net) Demo.config "Rome" "restaurant"
        5 (7 # 2)%Q "osm" cache' w'
      = (Returns businesses, [], cache', w')
  | (Raises _, _, _, _) => False
  end.
Proof.
  pose proof (repeated_request_is_served_from_cache (H := Demo.net)
                Demo.config "Rome" "restaurant" 5 (7 # 2)%Q "osm" [] 0%nat)
    as Hagain.
  destruct (Service.get_businesses (H := Demo.net) Demo.config "Rome"
              "restaurant" 5 (7 # 2)%Q "osm" [] 0%nat)
    as [[[[businesses | e] trace] cache'] w'] eqn:Hfirst.
  - apply (Hagain businesses trace cache' w' eq_refl).
  - vm_compute in Hfirst. discriminate Hfirst.
Defined.

(** X18. If every list in the cache has pairwise distinct identities, then
    so does the list [get_businesses] returns, and so does every list in the
    cache it leaves; the empty cache is such a cache.  A search that raises
    leaves the cache as it was. *)
Theorem cached_results_have_distinct_identities `{Network} config location
  category radius_km min_rating api_source cache w :
  cache_distinct cache ->
  match Service.get_businesses config location category radius_km min_rating
          api_source cache w with
  | (Returns businesses, _, cache', _) =>
      NoDup (map dedup_key businesses) /\ cache_distinct cache'
  | (Raises _, _, cache', _) => cache' = cache /\ cache_distinct cache'
  end.
Proof.
  intro Hcache. unfold Service.get_businesses.
  destruct (Dict.get _ cache) as [cached |] eqn:Hget.
  - split; [exact (Hcache _ _ Hget) | exact Hcache].
  - destruct (api_search_businesses _ location category radius_km
                min_rating w) as [[found | e] w1];
      [| split; [reflexivity | exact Hcache]].
    split; [apply dedupe_keys_nodup |].
    intros key cached. rewrite get_set.
    destruct (key =? _).
    + intros [= <-]. apply dedupe_keys_nodup.
    + apply Hcache.
Qed.

Lemma cached_results_have_distinct_identities_demo :
  cache_distinct []
  /\ match
       Service.get_businesses (H := Demo.net) Demo.config "Rome" "restaurant"
         5 (7 # 2)%Q "osm" [] 0%nat
     with
     | (Returns businesses, _, cache', _) =>
         NoDup (map dedup_key businesses) /\ cache_distinct cache'
     | (Raises _, _, cache', _) => cache' = [] /\ cache_distinct cache'
     end
  /\ match
       Service.get_businesses (H := Demo.net) Demo.config "offline" "bar" 5
         (7 # 2)%Q "yelp" [] 0%nat
     with
     | (Returns businesses, _, cache', _) =>
         NoDup (map dedup_key businesses) /\ cache_distinct cache'
     | (Raises _, _, cache', _) => cache' = [] /\ cache_distinct cache'
     end.
Proof.
  assert (Hempty : cache_distinct []) by (intros key cached; discriminate).
  split; [exact Hempty | split].
  - apply (cached_results_have_distinct_identities (H := Demo.net)).
    exact Hempty.
  - apply (cached_results_have_distinct_identities (H := Demo.net)).
    exact Hempty.
Defined.

(** * Failures and the routes *)

(** X19. With the Yelp client selected, a transport failure on its search
    call fails the whole request: the route of [app.py], for a single
    category, ends in its exception handler after that one search, and the
    route of [api/routes.py], on a cache miss, answers with the error and
    leaves the cache as it was. *)
Theorem yelp_failure_fails_the_request `{Network} config location category
  radius min_rating api_source key w msg w' :
  select_api config api_source = UseYelp key ->
  yelp_http key
    (YelpWire.Search location
       (YelpFusionAPI.category_map (Py.lower category))
       (YelpFusionAPI.radius_meters radius) 50 None) w
  = (RequestException msg, w') ->
  (Py.lower category <> "all" ->
   App.search_businesses config location category radius min_rating
     api_source w
   = (Raises (AttributeError "'str' object has no attribute 'get'"),
      [CallSearch category], w'))
  /\ (forall page page_size cache,
        Dict.get
          (Service.cache_key api_source location category radius min_rating)
          cache = None ->
        Routes.search_businesses config location category radius min_rating
          api_source page page_size cache w
        = (Routes.ServerError
             (Some (AttributeError "'str' object has no attribute 'get'")),
           cache, w')).
Proof.
  intros Hapi Hfail.
  assert (Hsearch :
            api_search_businesses (select_api config api_source) location
              category radius min_rating w
            = (Raises (AttributeError "'str' object has no attribute 'get'"),
               w')).
  { rewrite Hapi. cbn [api_search_businesses].
    now apply yelp_search_raises with (msg := msg). }
  split.
  - intro Hsingle. rewrite app_single_category by assumption.
    now rewrite Hsearch.
  - intros page page_size cache Hmiss.
    unfold Routes.search_businesses, Service.get_businesses.
    now rewrite Hmiss, Hsearch.
Qed.

Lemma yelp_failure_fails_the_request_demo :
  App.search_businesses (H := Demo.net) Demo.config "offline" "bar" 5
    (7 # 2)%Q "yelp" 0%nat
  = (Raises (AttributeError "'str' object has no attribute 'get'"),
     [CallSearch "bar"], 1%nat).
Proof.
  apply (yelp_failure_fails_the_request (H := Demo.net) Demo.config
           "offline" "bar" 5%Z (7 # 2)%Q "yelp" "y-key" 0%nat "timed out"
           1%nat); [reflexivity | reflexivity | discriminate].
Defined.

Lemma search_each_returns `{Network} api location radius min_rating cats :
  (forall key, api <> UseYelp key) ->
  forall all_businesses trace w,
  exists found trace' w',
    App.search_each api location radius min_rating cats all_businesses trace
      w = (Returns found, trace', w').
Proof.
  intro Hfree.
  induction cats as [| cat cats IH]; intros all_businesses trace w;
    cbn [App.search_each].
  - now exists all_businesses, trace, w.
  - destruct api as [key | key |]; cbn [api_search_businesses].
    + destruct (GooglePlacesAPI.search_businesses key location cat radius
                  min_rating w) as [cat_businesses w1].
      apply IH.
    + now destruct (Hfree key).
    + destruct (OpenStreetMapAPI.search_businesses location cat radius
                  min_rating w) as [cat_businesses w1].
      apply IH.
Qed.

(** X20. For the category [all] and a source other than [yelp], the route
    of [app.py] returns a list: it has searched the six categories in their
    fixed order, has called the filter once, and the records it returns have
    pairwise distinct identities. *)
Theorem all_categories_search_returns_distinct `{Network} config location
  category radius min_rating api_source w :
  Py.lower category = "all" -> api_source <> "yelp" ->
  exists businesses trace w',
    App.search_businesses config location category radius min_rating
      api_source w = (Returns businesses, trace, w')
    /\ search_calls trace
       = ["hotel"; "restaurant"; "bar"; "cafe"; "bakery"; "nightclub"]
    /\ dedupe_calls trace = 1%nat
    /\ NoDup (map dedup_key businesses).
Proof.
  intros Hall Hsource.
  assert (Hfree : forall key, select_api config api_source <> UseYelp key).
  { intros key Heq. unfold select_api in Heq.
    apply String.eqb_neq in Hsource. rewrite Hsource in Heq.
    cbn [andb] in Heq. destruct (_ && _)%bool; discriminate. }
  pose proof (app_all_categories config location category radius min_rating
                api_source w Hall) as Hfacts.
  assert (Hreturns : exists businesses trace w',
            App.search_businesses config location category radius min_rating
              api_source w = (Returns businesses, trace, w')).
  { unfold App.search_businesses. rewrite Hall.
    cbn [String.eqb Ascii.eqb Bool.eqb].
    destruct (search_each_returns (select_api config api_source) location
                radius min_rating App.categories Hfree [] [] w)
      as (found & trace & w' & ->).
    eauto. }
  destruct Hreturns as (businesses & trace & w' & Heq).
  rewrite Heq in Hfacts.
  destruct Hfacts as (Hs & Hd & all_businesses & _ & ->).
  exists (filter_duplicate_businesses all_businesses), trace, w'.
  split; [assumption | split; [assumption | split; [assumption |]]].
  apply dedupe_keys_nodup.
Qed.

Lemma all_categories_search_returns_distinct_demo :
  exists businesses trace w',
    App.search_businesses (H := Demo.net) Demo.config "Rome" "All" 5
      (7 # 2)%Q "osm" 0%nat = (Returns businesses, trace, w')
    /\ search_calls trace
       = ["hotel"; "restaurant"; "bar"; "cafe"; "bakery"; "nightclub"]
    /\ dedupe_calls trace = 1%nat
    /\ NoDup (map dedup_key businesses).
Proof.
  apply (all_categories_search_returns_distinct (H := Demo.net));
    [reflexivity | discriminate].
Defined.

(** * The business dataclass *)

(** X21. [from_dict] undoes [to_dict] up to the reviews, which [to_dict]
    leaves out: a business without reviews comes back as it was, and a
    second conversion to a dictionary gives the first dictionary again.  A
    dictionary without the keys gives empty strings for the identifier, the
    name, the category and the address, and [None] for the other fields. *)
Theorem business_model_round_trip (b : Models.BusinessModel) :
  Models.from_dict (Models.to_dict b)
  = Models.mkBusinessModel (Models.id b) (Models.name b)
      (Models.category b) (Models.address b) (Models.city b)
      (Models.country b) (Models.phone b) (Models.email b)
      (Models.website b) (Models.rating b) (Models.reviews_count b)
      (Models.latitude b) (Models.longitude b) (Models.api_source b) []
  /\ (Models.reviews b = [] -> Models.from_dict (Models.to_dict b) = b)
  /\ Models.to_dict (Models.from_dict (Models.to_dict b)) = Models.to_dict b
  /\ Models.from_dict []
     = Models.mkBusinessModel (Py.VStr "") (Py.VStr "") (Py.VStr "")
         (Py.VStr "") Py.VNone Py.VNone Py.VNone Py.VNone Py.VNone Py.VNone
         Py.VNone Py.VNone Py.VNone Py.VNone [].
Proof.
  destruct b as [i n c a ci co p e ws r rc la lo src rv].
  split; [reflexivity | split; [| split; reflexivity]].
  cbn [Models.reviews]. intros ->. reflexivity.
Qed.

(** * Saving the results *)

Lemma string_app_assoc (s1 s2 s3 : string) :
  ((s1 ++ s2) ++ s3 = s1 ++ (s2 ++ s3))%string.
Proof.
  induction s1 as [| c s1 IH]; simpl; [reflexivity | now rewrite IH].
Qed.

Lemma rev_string_acc (s acc : string) :
  Str.rev_string acc s = (Str.rev_string "" s ++ acc)%string.
Proof.
  revert acc. induction s as [| c s IH]; intro acc; simpl; [reflexivity |].
  rewrite (IH (String c acc)), (IH (String c "")).
  now rewrite string_app_assoc.
Qed.

Lemma rev_string_app (s1 s2 : string) :
  Str.rev_string "" (s1 ++ s2)
  = (Str.rev_string "" s2 ++ Str.rev_string "" s1)%string.
Proof.
  induction s1 as [| c s1 IH]; simpl.
  - induction (Str.rev_string "" s2) as [| c s IHs]; simpl;
      [reflexivity | now rewrite <- IHs].
  - rewrite (rev_string_acc (s1 ++ s2)), (rev_string_acc s1), IH.
    now rewrite string_app_assoc.
Qed.

Lemma prefix_app (s t : string) : String.prefix s (s ++ t) = true.
Proof.
  induction s as [| c s IH]; simpl; [now destruct t |].
  destruct (ascii_dec c c) as [_ | Hne]; [exact IH | now destruct Hne].
Qed.

Lemma endswith_app (s suffix : string) :
  Text.endswith (s ++ suffix) suffix = true.
Proof.
  unfold Text.endswith. rewrite rev_string_app. apply prefix_app.
Qed.

(** X22. The name under which the results are saved always ends in
    [.csv], and a name that already does is kept as it is. *)
Theorem saved_file_name_ends_in_csv (filename : string) :
  Text.endswith (Save.csv_filename filename) ".csv" = true
  /\ Save.csv_filename (Save.csv_filename filename)
     = Save.csv_filename filename
  /\ (Text.endswith filename ".csv" = true ->
      Save.csv_filename filename = filename).
Proof.
  assert (Hends : Text.endswith (Save.csv_filename filename) ".csv" = true).
  { unfold Save.csv_filename.
    destruct (Text.endswith filename ".csv") eqn:E; cbn [negb];
      [exact E | apply endswith_app]. }
  split; [exact Hends | split].
  - unfold Save.csv_filename at 1. now rewrite Hends.
  - intro Hcsv. unfold Save.csv_filename. now rewrite Hcsv.
Qed.

Lemma dict_to_list_row b :
  Save._dict_to_list (Save.row_of b) = Some (Business_values b).
Proof. reflexivity. Qed.

Lemma writerows_rows businesses :
  Save.writerows (map Save.row_of businesses)
  = Some (map Business_values businesses).
Proof.
  induction businesses as [| b businesses IH]; [reflexivity |].
  cbn [map Save.writerows]. now rewrite dict_to_list_row, IH.
Qed.

(** X23. What the search route stores cannot be saved: every stored record
    carries the key [id], which is not a column, so [save_to_csv] raises
    [ValueError] on any stored list, as it does on the empty list.  The same
    records without that key would be written, one row per record with the
    values in column order. *)
Theorem stored_results_cannot_be_saved (uuid4 : nat -> string)
  (businesses : list Business) :
  (exists msg header_written,
     Save.save_to_csv (Save.stored uuid4 businesses)
     = Save.ValueError msg header_written)
  /\ (businesses <> [] ->
      Save.save_to_csv (map Save.row_of businesses)
      = Save.File Save.fieldnames (map Business_values businesses)).
Proof.
  split.
  - destruct businesses as [| b businesses];
      [now exists "No businesses to save", false |].
    exists "dict contains fields not in fieldnames", true. reflexivity.
  - intro Hne. unfold Save.save_to_csv.
    rewrite writerows_rows.
    destruct businesses as [| b businesses]; [now destruct Hne |].
    reflexivity.
Qed.

(** * City and country of a Google place *)

Lemma last_cons {A : Type} (a d : A) (l : list A) :
  last (a :: l) d = last l a.
Proof.
  revert a d. induction l as [| b l IH]; intros a d; [reflexivity |].
  change (last (a :: b :: l) d) with (last (b :: l) d).
  now rewrite !IH.
Qed.

Lemma scan_components_from components : forall city country,
  fold_left
    (fun (acc : string * string) component =>
       if GooglePlacesAPI.mem_string "locality" (GoogleWire.types component)
       then (GoogleWire.long_name component, snd acc)
       else if GooglePlacesAPI.mem_string "country"
                 (GoogleWire.types component)
            then (fst acc, GoogleWire.long_name component)
            else acc)
    components (city, country)
  = (last (map GoogleWire.long_name (filter is_locality components)) city,
     last (map GoogleWire.long_name (filter is_country_only components))
       country).
Proof.
  induction components as [| c components IH]; intros city country;
    [reflexivity |].
  cbn [fold_left filter].
  change (GooglePlacesAPI.mem_string "locality" (GoogleWire.types c))
    with (is_locality c).
  destruct (is_locality c) eqn:Hloc.
  - assert (Hco : is_country_only c = false)
      by (unfold is_country_only; now rewrite Hloc).
    rewrite Hco, IH. cbn [map snd]. now rewrite last_cons.
  - destruct (GooglePlacesAPI.mem_string "country" (GoogleWire.types c))
      eqn:Hcountry.
    + assert (Hco : is_country_only c = true)
        by (unfold is_country_only; now rewrite Hloc, Hcountry).
      rewrite Hco, IH. cbn [map fst]. now rewrite last_cons.
    + assert (Hco : is_country_only c = false)
        by (unfold is_country_only; now rewrite Hloc, Hcountry).
      now rewrite Hco, IH.
Qed.

(** X24. The city of a Google record is the name of the last address
    component typed [locality], and its country the name of the last
    component typed [country] and not [locality]; each is the empty string
    when there is no such component. *)
Theorem google_city_and_country (category : string)
  (d : GoogleWire.PlaceDetails) :
  City (GooglePlacesAPI.business_of_details category d)
  = last
      (map GoogleWire.long_name
         (filter is_locality (GoogleWire.address_components d))) ""
  /\ Country (GooglePlacesAPI.business_of_details category d)
     = last
         (map GoogleWire.long_name
            (filter is_country_only (GoogleWire.address_components d))) "".
Proof.
  unfold GooglePlacesAPI.business_of_details,
    GooglePlacesAPI.scan_components.
  rewrite scan_components_from. split; reflexivity.
Qed.

(** * The end of the Yelp pagination *)

(** X25. When the offset after the current page is not below the total the
    service reported, or not below 1000, the body of the Yelp loop asks for
    no further page: it cannot end the loop, and it leaves the current search
    result in place. *)
Theorem yelp_pagination_stops `{Network} key location category radius c
  business_id sr bs w :
  let offset :=
    (from_option 0 (YelpWire.offset sr)
     + Z.of_nat (length (YelpWire.businesses sr)))%Z in
  (from_option 0 (YelpWire.total sr) <= offset \/ 1000 <= offset)%Z ->
  exists bs' w',
    YelpFusionAPI.visit_business key location category radius c business_id
      sr bs w = YelpFusionAPI.Next sr bs' w'.
Proof.
  intros offset Hstop. unfold YelpFusionAPI.visit_business.
  destruct (YelpFusionAPI._make_request key _ w) as [details_result w1].
  destruct (YelpFusionAPI.has_error details_result); [eauto |].
  destruct (enrich_email _ w1) as [bd w2].
  fold offset.
  assert (Hcond : ((offset <? from_option 0 (YelpWire.total sr))
                   && (offset <? 1000))%Z = false).
  { apply andb_false_iff.
    destruct Hstop as [Htotal | Hcap]; [left | right]; apply Z.ltb_ge; lia. }
  rewrite Hcond. eauto.
Qed.

Lemma yelp_pagination_stops_demo :
  exists bs' w',
    YelpFusionAPI.visit_business (H := Demo.net) "y-key" "Rome" "bar" 5000
      (Demo.yelp_candidate (Some "good") (Some (9 # 2)%Q)) "good"
      (YelpWire.mkJson None Demo.yelp_candidates None (Some 4%Z)) [] 1%nat
    = YelpFusionAPI.Next
        (YelpWire.mkJson None Demo.yelp_candidates None (Some 4%Z)) bs' w'.
Proof.
  apply (yelp_pagination_stops (H := Demo.net)).
  left. vm_compute. discriminate.
Defined.

(** * The rating threshold, from the answers of the services to the result *)

Section RatingFilter.
Context `{Network}.

Lemma not_too_low_google place min_rating :
  GooglePlacesAPI.rating_too_low place min_rating = false ->
  forall r, GoogleWire.rating place = Some r -> ~ (r < min_rating)%Q.
Proof.
  unfold GooglePlacesAPI.rating_too_low. intros Hpass r Hr Hlt.
  rewrite Hr in Hpass. apply ltb_lt in Hlt. congruence.
Qed.

Lemma not_too_low_yelp candidate min_rating :
  YelpFusionAPI.rating_too_low candidate min_rating = false ->
  ~ (from_option 0 (YelpWire.rating candidate) < min_rating)%Q.
Proof.
  unfold YelpFusionAPI.rating_too_low. intros Hpass Hlt.
  apply ltb_lt in Hlt. congruence.
Qed.

(** A pass through the body of the Google loop appends nothing, or the
    record built from the answer to the details call for the place. *)
Lemma google_visit_origin key category place sr bs w :
  match GooglePlacesAPI.visit_place key category place sr bs w with
  | GooglePlacesAPI.Next _ bs' _ | GooglePlacesAPI.Break bs' _ =>
      bs' = bs
      \/ exists body w1,
           google_http key (GoogleWire.Details (GoogleWire.place_id place)) w
           = (Ok body, w1)
           /\ bs' = bs ++ [fst (enrich_email
                                  (GooglePlacesAPI.business_of_details
                                     category (GoogleWire.result body)) w1)]
  end.
Proof.
  unfold GooglePlacesAPI.visit_place, GooglePlacesAPI._get_place_details,
    GooglePlacesAPI._make_request.
  destruct (google_http key (GoogleWire.Details (GoogleWire.place_id place))
              w) as [[body | msg] w1] eqn:Hdetails; [| now left].
  destruct (GooglePlacesAPI.status_not_ok body); [now left |].
  assert (Hmade : forall bd w2,
            enrich_email
              (GooglePlacesAPI.business_of_details category
                 (GoogleWire.result body)) w1 = (bd, w2) ->
            exists body0 w0,
              (Ok body, w1) = (Ok body0, w0)
              /\ bs ++ [bd]
                 = bs ++ [fst (enrich_email
                                 (GooglePlacesAPI.business_of_details
                                    category (GoogleWire.result body0)) w0)]).
  { intros bd w2 Heq. exists body, w1. now rewrite Heq. }
  destruct (enrich_email _ w1) as [bd w2].
  specialize (Hmade bd w2 eq_refl).
  destruct (GoogleWire.next_page_token sr) as [token |]; [| now right].
  destruct (google_http key (GoogleWire.NextPage token) w2)
    as [[next_result | msg] w3]; [| now right].
  destruct (GooglePlacesAPI.status_not_ok next_result); now right.
Qed.

(** Every record the Google loop appends is built from the answer to the
    details call for a place of the list that passes the rating test. *)
Lemma google_loop_origin key category min_rating places : forall sr bs w,
  exists extra,
    fst (GooglePlacesAPI.places_loop key category min_rating places sr bs w)
    = bs ++ extra
    /\ Forall
         (fun b => exists place w0 body w1,
            In place places
            /\ GooglePlacesAPI.rating_too_low place min_rating = false
            /\ google_http key
                 (GoogleWire.Details (GoogleWire.place_id place)) w0
               = (Ok body, w1)
            /\ b = fst (enrich_email
                          (GooglePlacesAPI.business_of_details category
                             (GoogleWire.result body)) w1))
         extra.
Proof.
  induction places as [| p places IH]; intros sr bs w.
  - exists []. simpl. rewrite app_nil_r. auto.
  - assert (Hweaken : forall extra,
              Forall
                (fun b => exists place w0 body w1,
                   In place places
                   /\ GooglePlacesAPI.rating_too_low place min_rating = false
                   /\ google_http key
                        (GoogleWire.Details (GoogleWire.place_id place)) w0
                      = (Ok body, w1)
                   /\ b = fst (enrich_email
                                 (GooglePlacesAPI.business_of_details
                                    category (GoogleWire.result body)) w1))
                extra ->
              Forall
                (fun b => exists place w0 body w1,
                   In place (p :: places)
                   /\ GooglePlacesAPI.rating_too_low place min_rating = false
                   /\ google_http key
                        (GoogleWire.Details (GoogleWire.place_id place)) w0
                      = (Ok body, w1)
                   /\ b = fst (enrich_email
                                 (GooglePlacesAPI.business_of_details
                                    category (GoogleWire.result body)) w1))
                extra).
    { intros extra Hall. eapply Forall_impl; [| exact Hall].
      intros b (place & w0 & body & w1 & Hin & Hrest).
      exists place, w0, body, w1. split; [now right | exact Hrest]. }
    cbn [GooglePlacesAPI.places_loop].
    destruct (GooglePlacesAPI.rating_too_low p min_rating) eqn:Hrating.
    { destruct (IH sr bs w) as (extra & Heq & Hall).
      exists extra. split; [exact Heq | now apply Hweaken]. }
    pose proof (google_visit_origin key category p sr bs w) as Hvisit.
    destruct (GooglePlacesAPI.visit_place key category p sr bs w)
      as [sr' bs' w' | bs' w'].
    + destruct (IH sr' bs' w') as (extra & Heq & Hall).
      rewrite Heq. destruct Hvisit as [-> | (body & w1 & Hdetails & ->)].
      * exists extra. split; [reflexivity | now apply Hweaken].
      * exists (fst (enrich_email
                       (GooglePlacesAPI.business_of_details category
                          (GoogleWire.result body)) w1) :: extra).
        rewrite <- app_assoc. split; [reflexivity |].
        constructor; [| now apply Hweaken].
        exists p, w, body, w1. split; [now left | auto].
    + cbn [fst]. destruct Hvisit as [-> | (body & w1 & Hdetails & ->)].
      * exists []. rewrite app_nil_r. split; [reflexivity | constructor].
      * exists [fst (enrich_email
                       (GooglePlacesAPI.business_of_details category
                          (GoogleWire.result body)) w1)].
        split; [reflexivity |]. constructor; [| constructor].
        exists p, w, body, w1. split; [now left | auto].
Qed.

End RatingFilter.

(** C7. A Google or Yelp candidate rated strictly below [min_rating] is
    passed over.  Each loop gives the same records and leaves the same world
    as on the candidates without those it finds too low, and it finds too low
    every candidate whose rating is strictly below the threshold.  Every
    record [search_businesses] returns for Google is built from the details
    of a candidate of the nearby-search answer whose rating, if it has one,
    is not below the threshold; every record it returns for Yelp is built
    from a candidate of the search answer whose rating, 0 when absent, is not
    below the threshold; and when the first calls succeed each search is its
    loop on the candidates that pass.  The OpenStreetMap search does not
    depend on [min_rating]: when its two lookups succeed it returns, for
    every threshold, one record under its name for every node of the answer
    that has a [name] tag. *)
Theorem rating_filter_by_provider `{Network} :
  (forall key category min_rating places sr bs w,
     GooglePlacesAPI.places_loop key category min_rating places sr bs w
     = GooglePlacesAPI.places_loop key category min_rating
         (filter (fun p => negb (GooglePlacesAPI.rating_too_low p min_rating))
            places) sr bs w)
  /\ (forall place r min_rating,
        GoogleWire.rating place = Some r -> (r < min_rating)%Q ->
        GooglePlacesAPI.rating_too_low place min_rating = true)
  /\ (forall key location category radius min_rating candidates sr bs w,
        YelpFusionAPI.businesses_loop key location category radius
          min_rating candidates sr bs w
        = YelpFusionAPI.businesses_loop key location category radius
            min_rating
            (filter
               (fun c => negb (YelpFusionAPI.rating_too_low c min_rating))
               candidates) sr bs w)
  /\ (forall candidate r min_rating,
        YelpWire.rating candidate = Some r -> (r < min_rating)%Q ->
        YelpFusionAPI.rating_too_low candidate min_rating = true)
  /\ (forall location category radius_km min_rating min_rating' w,
        OpenStreetMapAPI.search_businesses location category radius_km
          min_rating w
        = OpenStreetMapAPI.search_businesses location category radius_km
            min_rating' w)
  /\ (forall category location_data elements w,
        map Business_Name
          (fst (OpenStreetMapAPI.elements_loop category location_data
                  elements [] w))
        = named_nodes elements)
  /\ (forall key location category radius_km min_rating w,
        Forall
          (fun b => exists coords w1 sr w2 place w3 body w4,
             google_http key
               (GoogleWire.NearbySearch coords (radius_km * 1000)
                  (GooglePlacesAPI.category_map (Py.lower category))) w1
             = (Ok sr, w2)
             /\ In place (GoogleWire.results sr)
             /\ (forall r, GoogleWire.rating place = Some r ->
                   ~ (r < min_rating)%Q)
             /\ google_http key
                  (GoogleWire.Details (GoogleWire.place_id place)) w3
                = (Ok body, w4)
             /\ b = fst (enrich_email
                           (GooglePlacesAPI.business_of_details category
                              (GoogleWire.result body)) w4))
          (fst (GooglePlacesAPI.search_businesses key location category
                  radius_km min_rating w)))
  /\ (forall key location category radius_km min_rating w geo w1 sr w2,
        google_http key (GoogleWire.Geocode location) w = (Ok geo, w1) ->
        GoogleWire.status geo = Some "OK" ->
        google_http key
          (GoogleWire.NearbySearch (GoogleWire.first_location geo)
             (radius_km * 1000)
             (GooglePlacesAPI.category_map (Py.lower category))) w1
        = (Ok sr, w2) ->
        GoogleWire.status sr = Some "OK" ->
        GooglePlacesAPI.search_businesses key location category radius_km
          min_rating w
        = GooglePlacesAPI.places_loop key category min_rating
            (filter
               (fun p => negb (GooglePlacesAPI.rating_too_low p min_rating))
               (GoogleWire.results sr)) sr [] w2)
  /\ (forall key location category radius_km min_rating w businesses,
        fst (YelpFusionAPI.search_businesses key location category radius_km
               min_rating w) = Returns businesses ->
        Forall
          (fun b => exists w0 sr w1 candidate w2,
             yelp_http key
               (YelpWire.Search location
                  (YelpFusionAPI.category_map (Py.lower category))
                  (YelpFusionAPI.radius_meters radius_km) 50 None) w0
             = (Ok sr, w1)
             /\ In candidate (YelpWire.businesses sr)
             /\ ~ (from_option 0 (YelpWire.rating candidate) < min_rating)%Q
             /\ b = fst (enrich_email
                           (YelpFusionAPI.business_of_candidate category
                              candidate) w2))
          businesses)
  /\ (forall key location category radius_km min_rating w sr w1,
        yelp_http key
          (YelpWire.Search location
             (YelpFusionAPI.category_map (Py.lower category))
             (YelpFusionAPI.radius_meters radius_km) 50 None) w
        = (Ok sr, w1) ->
        YelpWire.error sr = None ->
        YelpFusionAPI.search_businesses key location category radius_km
          min_rating w
        = let (businesses, w2) :=
            YelpFusionAPI.businesses_loop key location category
              (YelpFusionAPI.radius_meters radius_km) min_rating
              (filter
                 (fun c => negb (YelpFusionAPI.rating_too_low c min_rating))
                 (YelpWire.businesses sr)) sr [] w1 in
          (Returns businesses, w2))
  /\ (forall location category radius_km min_rating w place others w1
             elements w2,
        nominatim_http (OsmWire.Search location) w
        = (Ok (place :: others), w1) ->
        overpass_http
          (OsmWire.Overpass
             (OpenStreetMapAPI.category_map (Py.lower category))
             (OsmWire.lat place) (OsmWire.lon place) radius_km) w1
        = (Ok elements, w2) ->
        map Business_Name
          (fst (OpenStreetMapAPI.search_businesses location category
                  radius_km min_rating w))
        = named_nodes elements).
Proof.
  split; [intros; apply google_loop_skips |].
  split.
  { intros place r min_rating Hr Hlt.
    unfold GooglePlacesAPI.rating_too_low. rewrite Hr. now apply ltb_lt. }
  split; [intros; apply yelp_loop_skips |].
  split.
  { intros candidate r min_rating Hr Hlt.
    unfold YelpFusionAPI.rating_too_low. rewrite Hr. now apply ltb_lt. }
  split; [reflexivity |].
  split; [intros; apply osm_loop_names |].
  split.
  { intros key location category radius_km min_rating w.
    unfold GooglePlacesAPI.search_businesses, GooglePlacesAPI._make_request,
      GooglePlacesAPI.radius_meters.
    destruct (google_http key (GoogleWire.Geocode location) w)
      as [[geo | msg] w1]; [| constructor].
    destruct (GooglePlacesAPI.status_not_ok geo); [constructor |].
    destruct (google_http key (GoogleWire.NearbySearch _ _ _) w1)
      as [[sr | msg] w2] eqn:Hnearby; [| constructor].
    destruct (GooglePlacesAPI.status_not_ok sr); [constructor |].
    destruct (google_loop_origin key category min_rating
                (GoogleWire.results sr) sr [] w2) as (extra & Heq & Hall).
    rewrite Heq. cbn [app]. eapply Forall_impl; [| exact Hall].
    intros b (place & w3 & body & w4 & Hin & Hpass & Hdetails & ->).
    exists (GoogleWire.first_location geo), w1, sr, w2, place, w3, body, w4.
    split; [exact Hnearby | split; [exact Hin |]].
    split; [now apply not_too_low_google | now split]. }
  split.
  { intros * Hgeo Hgeo_ok Hnearby Hnearby_ok.
    unfold GooglePlacesAPI.search_businesses, GooglePlacesAPI._make_request,
      GooglePlacesAPI.radius_meters.
    rewrite Hgeo. unfold GooglePlacesAPI.status_not_ok at 1.
    rewrite Hgeo_ok. cbn [String.eqb Ascii.eqb Bool.eqb negb].
    rewrite Hnearby. unfold GooglePlacesAPI.status_not_ok at 1.
    rewrite Hnearby_ok. cbn [String.eqb Ascii.eqb Bool.eqb negb].
    apply google_loop_skips. }
  split.
  { intros key location category radius_km min_rating w businesses.
    unfold YelpFusionAPI.search_businesses, YelpFusionAPI._make_request.
    destruct (yelp_http key (YelpWire.Search _ _ _ _ _) w)
      as [[sr | msg] w1] eqn:Hsearch; [| discriminate].
    destruct (YelpWire.error sr) as [[text | description] |].
    - discriminate.
    - cbn [fst]. intros [= <-]. constructor.
    - destruct (yelp_loop_appends key location category
                  (YelpFusionAPI.radius_meters radius_km) min_rating
                  (YelpWire.businesses sr) sr [] w1)
        as (extra & Heq & _ & Hall).
      destruct (YelpFusionAPI.businesses_loop _ _ _ _ _ _ sr [] w1)
        as [found w2].
      cbn [fst] in *. intros [= <-]. rewrite Heq. cbn [app].
      eapply Forall_impl; [| exact Hall].
      intros b (c & w2' & Hin & Hpass & _ & ->).
      exists w, sr, w1, c, w2'.
      split; [exact Hsearch | split; [exact Hin |]].
      split; [now apply not_too_low_yelp | reflexivity]. }
  split.
  { intros * Hsearch Hclean.
    unfold YelpFusionAPI.search_businesses, YelpFusionAPI._make_request.
    rewrite Hsearch, Hclean. now rewrite yelp_loop_skips. }
  intros * Hsearch Hoverpass.
  unfold OpenStreetMapAPI.search_businesses, OpenStreetMapAPI._make_request.
  rewrite Hsearch, Hoverpass. apply osm_loop_names.
Qed.

(** C7 on the scripted network: the OpenStreetMap search returns the two
    named nodes under the highest threshold, and the Google search is its
    loop on the candidates that pass. *)
Lemma rating_filter_by_provider_demo :
  map Business_Name
    (fst (OpenStreetMapAPI.search_businesses (H := Demo.net) "Rome"
            "restaurant" 5 (5 # 1)%Q 0%nat))
  = ["Da Enzo"; "Da Enzo"]
  /\ map Business_Name
       (fst (GooglePlacesAPI.search_businesses (H := Demo.net) "g-key" "Rome"
               "restaurant" 5 (7 # 2)%Q 0%nat))
     = ["unrated"; "good"].
Proof.
  destruct (rating_filter_by_provider (H := Demo.net))
    as (_ & _ & _ & _ & _ & _ & _ & Hgoogle & _ & _ & Hosm).
  split.
  - rewrite (Hosm "Rome" "restaurant" 5%Z (5 # 1)%Q 0%nat
               (OsmWire.mkLocation "41.9" "12.5" (Some "Roma, Lazio, Italia"))
               [] 1%nat Demo.osm_elements 2%nat); reflexivity.
  - rewrite (Hgoogle "g-key" "Rome" "restaurant" 5%Z (7 # 2)%Q 0%nat
               (Demo.google_ok [] GoogleWire.no_details) 1%nat
               (Demo.google_ok Demo.google_places GoogleWire.no_details)
               2%nat); reflexivity.
Defined.
